(** * Shipwreck explorer: the table pipeline of [app.py]

    A shallow embedding of the data-handling code of the dashboard:
    [load_data], [filter_wrecks], [get_year_limits], the four view
    functions and [main], followed by the properties of the specification
    and further properties of the code.

    Conventions of the embedding.
    - A pandas [DataFrame] is the list of its rows, in row order.  A cell
      that pandas holds as NaN is [None].
    - The cells of the numeric columns YEAR and LIVES LOST are whole
      numbers (the data model of the specification), written as [Z] and
      taken within the range of the 64-bit integers.  What the code
      holds of them and computes from them in binary floating point or
      in 64-bit integers is computed here with the rounding and the
      wrap-around written out.
    - A float of Python or of a float64 column is the rational it stands
      for; an operation on floats returns the exact result rounded to
      the nearest double ([round64]).
    - The cells of the text columns are strings; a text column that
      pandas would read as numbers is outside the embedding.
    - The coordinates are only tested for presence and averaged; they are
      exact rationals here.
    - An uncaught Python exception is the [Raise] outcome of a small
      error monad. *)

From Stdlib Require Import ZArith QArith Qcanon Qround.
From stdpp Require Import base tactics option list numbers strings sorting.

Local Open Scope Z_scope.
Set Warnings "-clear-no-such-hyp".

(** ** Data model *)

(** One row of the table, in the file and as a row of the frame that the
    first lines of [load_data] build ([pd.read_csv], then
    [pd.to_numeric(..., errors="coerce")] on the four numeric columns):
    every cell is present or missing. *)
Record CsvRow := {
  csv_name : option string;        (* SHIP'S NAME *)
  csv_year : option Z;             (* YEAR *)
  csv_vessel_type : option string; (* VESSEL TYPE *)
  csv_lives_lost : option Z;       (* LIVES LOST *)
  csv_location : option string;    (* LOCATION LOST *)
  csv_cause : option string;       (* CAUSE OF LOSS *)
  csv_latitude : option Qc;        (* LATITUDE *)
  csv_longitude : option Qc        (* LONGITUDE *)
}.

(** A row of the loaded frame: the columns of the file and the four
    columns [load_data] adds. *)
Record Row := {
  csv : CsvRow;
  LIVES_LOST_CLEAN : Z;
  DECADE : option Z;
  CENTURY : option Z;
  HAS_COORDS : bool
}.

Definition SHIPS_NAME (r : Row) : option string := csv_name (csv r).
Definition YEAR (r : Row) : option Z := csv_year (csv r).
Definition VESSEL_TYPE (r : Row) : option string := csv_vessel_type (csv r).
Definition LIVES_LOST (r : Row) : option Z := csv_lives_lost (csv r).
Definition LOCATION_LOST (r : Row) : option string := csv_location (csv r).
Definition CAUSE_OF_LOSS (r : Row) : option string := csv_cause (csv r).
Definition LATITUDE (r : Row) : option Qc := csv_latitude (csv r).
Definition LONGITUDE (r : Row) : option Qc := csv_longitude (csv r).

(** A frame and the projection of one of its columns ([df["COL"]]). *)
Abbreviation DataFrame := (list Row).

Definition column {A} (col : Row → A) (df : DataFrame) : list A := col <$> df.

(** ** Series helpers *)

(** [pd.notna] *)
Definition notna {A} (c : option A) : bool :=
  match c with Some _ => true | None => false end.

(** [Series.fillna(v)] on one cell *)
Definition fillna {A} (v : A) (c : option A) : A :=
  match c with Some x => x | None => v end.

(** [Series.dropna()] *)
Definition dropna {A} (s : list (option A)) : list A := omap id s.

(** ** Binary floating point *)

(** The integer nearest to [n / d], for [d > 0]; of two that are equally
    near, the even one. *)
Definition nearest_even (n d : Z) : Z :=
  let q := n / d in
  match 2 * (n `mod` d) ?= d with
  | Lt => q
  | Gt => q + 1
  | Eq => if Z.even q then q else q + 1
  end.

(** [floor (log2 (n / d))], for [n > 0] and [d > 0]. *)
Definition ilog2 (n d : Z) : Z :=
  if d <=? n then Z.log2 (n / d) else - Z.log2_up ((d + n - 1) / n).

(** The double nearest to [n / d], for [d > 0]: a significand of 53 bits,
    ties to the even significand, the spacing of the subnormal numbers
    below the least exponent.  The loader divides by 10 and by 100 and
    multiplies what it has divided, so it never reaches the overflow
    threshold, which is left out. *)
Definition round_ratio (n d : Z) : Q :=
  if n =? 0 then 0%Q
  else
    let e := Z.max (ilog2 (Z.abs n) d - 52) (-1074) in
    if 0 <=? e then inject_Z (nearest_even n (d * 2 ^ e) * 2 ^ e)
    else Qred (Qmake (nearest_even (n * 2 ^ (- e)) d) (Z.to_pos (2 ^ (- e)))).

Definition round64 (q : Q) : Q := round_ratio (Qnum q) (Zpos (Qden q)).

(** The operations of Python's [float]. *)
Definition fadd (a b : Q) : Q := round64 (a + b).
Definition fsub (a b : Q) : Q := round64 (a - b).
Definition fmul (a b : Q) : Q := round64 (a * b).
Definition fdiv (a b : Q) : Q := round64 (a / b).

(** [int(x)] on a float: towards zero.  [math.floor(x)] is [Qfloor]. *)
Definition trunc (a : Q) : Z := Z.quot (Qnum a) (Zpos (Qden a)).

(** C's [fmod], which is exact: the remainder has the sign of [a]. *)
Definition fmod (a b : Q) : Q := Qred (a - inject_Z (trunc (a / b)) * b).

Definition Qltb (a b : Q) : bool := negb (Qle_bool b a).

(** [vx // wx] on floats, as CPython's [float_floor_div] (and numpy's
    [npy_floor_divide]) compute it, for [wx] other than 0. *)
Definition float_floordiv (vx wx : Q) : Q :=
  let rem := fmod vx wx in
  let div := fdiv (fsub vx rem) wx in
  let div :=
    if negb (Qeq_bool rem 0) && negb (Bool.eqb (Qltb wx 0) (Qltb rem 0))
    then fsub div 1
    else div in
  if Qeq_bool div 0 then 0%Q
  else
    let floordiv := inject_Z (Qfloor div) in
    if Qltb (Qmake 1 2) (fsub div floordiv) then fadd floordiv 1 else floordiv.

(** ** 64-bit integers *)

(** A value brought into the range of int64, as numpy's casts and sums
    of 64-bit integers do. *)
Definition wrap64 (z : Z) : Z := (z + 2 ^ 63) `mod` 2 ^ 64 - 2 ^ 63.

(** ** Loading *)

(** A numeric column is float64 when one of its cells is missing; with
    every cell present it is a column of 64-bit integers. *)
Definition float_column (cells : list (option Z)) : bool :=
  bool_decide (None ∈ cells).

(** What a column holds of a whole number: a float64 column holds the
    double nearest to it. *)
Definition held (floats : bool) (z : Z) : Z :=
  if floats then trunc (round64 (inject_Z z)) else z.

(** [pd.read_csv] and [pd.to_numeric(..., errors="coerce")] on one row
    of the file: the numbers of YEAR and LIVES LOST as their columns
    hold them. *)
Definition read_row (year_floats lives_floats : bool) (c : CsvRow) : CsvRow := {|
  csv_name := csv_name c;
  csv_year := held year_floats <$> csv_year c;
  csv_vessel_type := csv_vessel_type c;
  csv_lives_lost := held lives_floats <$> csv_lives_lost c;
  csv_location := csv_location c;
  csv_cause := csv_cause c;
  csv_latitude := csv_latitude c;
  csv_longitude := csv_longitude c
|}.

(** [astype(int)], a cast to int64.  A column of integers wraps around.
    A float64 column is cast as C casts a double: a double outside int64
    becomes -2^63, which is what the conversion instruction of x86-64
    returns. *)
Definition astype_int (floats : bool) (z : Z) : Z :=
  if floats
  then if (- 2 ^ 63 <=? z) && (z <? 2 ^ 63) then z else - 2 ^ 63
  else wrap64 z.

(** [lambda y: int(y // 10 * 10) if pd.notna(y) else np.nan].  On a
    float64 column [apply] hands the lambda a float, on a column of
    integers a Python integer. *)
Definition decade_of (floats : bool) (y : option Z) : option Z :=
  match y with
  | Some y =>
      Some (if floats
            then trunc (fmul (float_floordiv (inject_Z y) 10) 10)
            else y / 10 * 10)
  | None => None
  end.

(** [lambda y: int(math.floor(y / 100) + 1) if pd.notna(y) else np.nan]:
    [y / 100] is a float whether [y] is a float or an integer, in both
    cases the double nearest to the exact quotient. *)
Definition century_of (y : option Z) : option Z :=
  match y with
  | Some y => Some (Qfloor (fdiv (inject_Z y) 100) + 1)
  | None => None
  end.

(** [fillna(0).astype(int)] on one LIVES LOST cell. *)
Definition lives_lost_clean_of (floats : bool) (c : option Z) : Z :=
  astype_int floats (fillna 0 c).

(** The derived columns of one row.  The column [apply] returns is
    float64 when one of its cells is NaN, which is when a year is
    missing. *)
Definition load_row (year_floats lives_floats : bool) (c : CsvRow) : Row := {|
  csv := c;
  LIVES_LOST_CLEAN := lives_lost_clean_of lives_floats (csv_lives_lost c);
  DECADE := held year_floats <$> decade_of year_floats (csv_year c);
  CENTURY := held year_floats <$> century_of (csv_year c);
  HAS_COORDS := notna (csv_latitude c) && notna (csv_longitude c)
|}.

(** [load_data], from the rows of the file on. *)
Definition load_data (table : list CsvRow) : DataFrame :=
  let year_floats := float_column (csv_year <$> table) in
  let lives_floats := float_column (csv_lives_lost <$> table) in
  load_row year_floats lives_floats <$> (read_row year_floats lives_floats <$> table).

(** ** Exceptions *)

Inductive exn := ValueError | IndexError.

Inductive outcome (A : Type) :=
  | Ok (a : A)
  | Raise (e : exn).
Arguments Ok {A} a.
Arguments Raise {A} e.

#[global] Instance outcome_ret : MRet outcome := λ A a, Ok a.
#[global] Instance outcome_bind : MBind outcome := λ A B k m,
  match m with
  | Ok a => k a
  | Raise e => Raise e
  end.

(** What a view leaves on the page: the [st.info] message it returns
    after, or what it computed and handed to the widgets. *)
Inductive page (A : Type) :=
  | Info (msg : string)
  | Shown (a : A).
Arguments Info {A} msg.
Arguments Shown {A} a.

(** ** Reductions *)

(** [Series.min()] and [Series.max()]: NaN on an empty series. *)
Definition series_min (s : list Z) : option Z :=
  match s with
  | [] => None
  | x :: s => Some (foldl Z.min x s)
  end.

Definition series_max (s : list Z) : option Z :=
  match s with
  | [] => None
  | x :: s => Some (foldl Z.max x s)
  end.

(** [Series.sum()] on a column of int64: 0 on an empty series, and the
    sum wraps around. *)
Definition series_sum (s : list Z) : Z := wrap64 (foldr Z.add 0 s).

(** [int(x)] on a numeric cell: [int(float("nan"))] raises. *)
Definition int (c : option Z) : outcome Z :=
  match c with
  | Some z => Ok z
  | None => Raise ValueError
  end.

(** [Series.mean()]: NaN on an empty series. *)
Definition series_mean (s : list Qc) : option Qc :=
  match s with
  | [] => None
  | _ :: _ => Some (foldr Qcplus 0%Qc s / Qc_of_Z (Z.of_nat (length s)))%Qc
  end.

(** ** Filtering *)

(** [Series.isin(values)] on one cell; a missing cell is in no list of
    strings. *)
Definition isin (values : list string) (c : option string) : bool :=
  match c with
  | Some v => bool_decide (v ∈ values)
  | None => false
  end.

(** [Series.between(left, right)] on one cell, both ends included; a
    missing cell compares false. *)
Definition between (left right : Z) (c : option Z) : bool :=
  match c with
  | Some y => (left <=? y) && (y <=? right)
  | None => false
  end.

(** [df[mask]]: the rows at which the mask is True. *)
Fixpoint select {A} (df : list A) (mask : list bool) : list A :=
  match df, mask with
  | r :: df, b :: mask => if b then r :: select df mask else select df mask
  | _, _ => []
  end.

(** [filter_wrecks(df, year_range, vessel_types=None, min_lives_lost=0)].
    [vessel_types] is [None] or a list; [not vessel_types] holds of [None]
    and of the empty list. *)
Definition filter_wrecks (df : DataFrame) (year_range : Z * Z)
    (vessel_types : option (list string)) (min_lives_lost : Z) : DataFrame :=
  let type_mask :=
    match vessel_types with
    | None | Some [] => notna <$> column VESSEL_TYPE df
    | Some types => isin types <$> column VESSEL_TYPE df
    end in
  let year_mask := between year_range.1 year_range.2 <$> column YEAR df in
  let lives_mask :=
    (λ v, min_lives_lost <=? v) <$> column LIVES_LOST_CLEAN df in
  let mask := zip_with andb (zip_with andb year_mask type_mask) lives_mask in
  select df mask.

(** [get_year_limits(df)] *)
Definition get_year_limits (df : DataFrame) : outcome (Z * Z) :=
  let years := dropna (column YEAR df) in
  match years with
  | [] => Ok (1705, 2000)
  | _ :: _ =>
      lo ← int (series_min years);
      hi ← int (series_max years);
      Ok (lo, hi)
  end.

(** ** Sorting *)

(** [DataFrame.sort_values(col, ascending=False)], with [ge a b] for "the
    value of [a] is at least that of [b]": the rows in non-increasing
    order of the column.  Rows with equal values keep their order here;
    the default sort of pandas promises no order among them, and no
    statement below depends on one. *)
Section sort_values.
Context {A} (ge : relation A) `{∀ a b, Decision (ge a b)}.

Fixpoint insert_row (x : A) (l : list A) : list A :=
  match l with
  | [] => [x]
  | y :: l' => if decide (ge x y) then x :: l else y :: insert_row x l'
  end.

Definition sort_values (l : list A) : list A := foldr insert_row [] l.
End sort_values.

(** ** Grouping *)

(** The rows of one group. *)
Definition group_rows {K} `{EqDecision K} (key : Row → option K) (k : K)
    (df : DataFrame) : DataFrame :=
  filter (λ r, key r = Some k) df.

(** [Series.count()] on the SHIP'S NAME column: the cells that are not
    missing. *)
Definition count_names (df : DataFrame) : nat :=
  length (dropna (column SHIPS_NAME df)).

(** [df.groupby(key)["SHIP'S NAME"].count()]: one group for each distinct
    key that is not missing, the keys in ascending order. *)
Definition groupby_count {K} `{EqDecision K} (le : relation K)
    `{∀ x y, Decision (le x y)} (key : Row → option K) (df : DataFrame) :
    list (K * nat) :=
  (λ k, (k, count_names (group_rows key k df))) <$>
    merge_sort le (remove_dups (dropna (column key df))).

(** A row of a frame of counts: its index label, the group and the count. *)
Record Counted (K : Type) := {
  label : nat;
  group : K;
  WRECK_COUNT : nat
}.
Arguments label {K} _.
Arguments group {K} _.
Arguments WRECK_COUNT {K} _.

(** [.reset_index(name="WRECK COUNT")]: the labels are 0, 1, 2, ... in
    row order. *)
Definition reset_index {K} (s : list (K * nat)) : list (Counted K) :=
  imap (λ i kc, {| label := i; group := kc.1; WRECK_COUNT := kc.2 |}) s.

(** [counts.sort_values("WRECK COUNT", ascending=False)]: the rows keep
    their labels; rows with equal counts keep their order. *)
Definition count_ge {K} (a b : Counted K) : Prop :=
  (WRECK_COUNT b ≤ WRECK_COUNT a)%nat.

#[global] Instance count_ge_dec {K} (a b : Counted K) : Decision (count_ge a b).
Proof. unfold count_ge. apply _. Defined.

Definition sort_by_count {K} (counts : list (Counted K)) : list (Counted K) :=
  sort_values count_ge counts.

(** [counts["WRECK COUNT"]]: a series, each value under its label. *)
Definition count_series {K} (counts : list (Counted K)) : list (nat * nat) :=
  (λ c, (label c, WRECK_COUNT c)) <$> counts.

(** [Series.idxmax()]: the label of the first row that holds the maximum;
    it raises on an empty series. *)
Fixpoint idxmax_from (best : nat * nat) (s : list (nat * nat)) : nat :=
  match s with
  | [] => best.1
  | x :: s => if (best.2 <? x.2)%nat then idxmax_from x s else idxmax_from best s
  end.

Definition idxmax (s : list (nat * nat)) : outcome nat :=
  match s with
  | [] => Raise ValueError
  | x :: s => Ok (idxmax_from x s)
  end.

(** [df.iloc[i]] for [i >= 0]: the row at position [i], whatever its
    label; it raises out of range. *)
Definition iloc {A} (df : list A) (i : nat) : outcome A :=
  match df !! i with
  | Some r => Ok r
  | None => Raise IndexError
  end.

(** ** Views *)

(** *** Vessel types *)

Record VesselChart := {
  bar_chart : list (Counted string);  (* the frame given to [px.bar] *)
  most_frequent : string * nat        (* the type and count of the sentence *)
}.

Definition show_vessel_chart_view (filtered : DataFrame) :
    outcome (page VesselChart) :=
  match filtered with
  | [] => Ok (Info "No wrecks match the current filters.")
  | _ :: _ =>
      let counts := reset_index (groupby_count String.le VESSEL_TYPE filtered) in
      let counts := sort_by_count counts in
      i ← idxmax (count_series counts);
      max_row ← iloc counts i;
      Ok (Shown {| bar_chart := counts;
                   most_frequent := (group max_row, WRECK_COUNT max_row) |})
  end.

(** *** Time trends *)

Record Pivot := {
  pivot_index : list Z;          (* the decades, one per table row *)
  pivot_columns : list string;   (* the vessel types, one per table column *)
  pivot_cells : list (list nat)
}.

(** [filtered.pivot_table(index="DECADE", columns="VESSEL TYPE",
    values="SHIP'S NAME", aggfunc="count", fill_value=0)]: the rows that
    miss either key belong to no cell; a cell without rows is filled
    with 0. *)
Definition pivot_table (df : DataFrame) : Pivot :=
  let keyed := filter (λ r, is_Some (DECADE r) ∧ is_Some (VESSEL_TYPE r)) df in
  let index := merge_sort Z.le (remove_dups (dropna (column DECADE keyed))) in
  let columns :=
    merge_sort String.le (remove_dups (dropna (column VESSEL_TYPE keyed))) in
  let cell d t :=
    match filter (λ r, DECADE r = Some d ∧ VESSEL_TYPE r = Some t) df with
    | [] => 0%nat
    | g => count_names g
    end in
  {| pivot_index := index;
     pivot_columns := columns;
     pivot_cells := (λ d, cell d <$> columns) <$> index |}.

Record TimeTrend := {
  line_chart : list (Counted Z);   (* the frame given to [px.line] *)
  decade_table : Pivot
}.

Definition show_time_trend_view (filtered : DataFrame) :
    outcome (page TimeTrend) :=
  match filtered with
  | [] => Ok (Info "No wrecks match the current filters.")
  | _ :: _ =>
      let yearly :=
        reset_index
          (groupby_count Z.le YEAR (filter (λ r, is_Some (YEAR r)) filtered)) in
      let pivot := pivot_table filtered in
      Ok (Shown {| line_chart := yearly; decade_table := pivot |})
  end.

(** *** Deadliest wrecks *)

(** [filtered.sort_values("LIVES_LOST_CLEAN", ascending=False)]; rows
    with equal values keep their order. *)
Definition lives_ge (a b : Row) : Prop :=
  LIVES_LOST_CLEAN b ≤ LIVES_LOST_CLEAN a.

#[global] Instance lives_ge_dec (a b : Row) : Decision (lives_ge a b).
Proof. unfold lives_ge. apply _. Defined.

Definition sort_by_lives (df : DataFrame) : DataFrame := sort_values lives_ge df.

(** [df.head(n)] *)
Definition head {A} (n : nat) (df : list A) : list A := take n df.

(** The six columns of the table on the page. *)
Definition TableRow : Type :=
  option string * option Z * option string * option string * option string
  * option Z.

Definition table_row (r : Row) : TableRow :=
  (SHIPS_NAME r, YEAR r, VESSEL_TYPE r, LOCATION_LOST r, CAUSE_OF_LOSS r,
   LIVES_LOST r).

Record Deadliest := {
  top10 : DataFrame;
  table : list TableRow;      (* what [st.dataframe] shows of [top10] *)
  stats : list (string * Z)   (* the dictionary, in insertion order *)
}.

Definition show_deadliest_view (filtered : DataFrame) :
    outcome (page Deadliest) :=
  match filtered with
  | [] => Ok (Info "No wrecks match the current filters.")
  | _ :: _ =>
      let deadly := sort_by_lives filtered in
      let top10 := head 10 deadly in
      let lives := column LIVES_LOST_CLEAN filtered in
      let total := Z.of_nat (length filtered) in
      let with_loss := Z.of_nat (length (filter (λ v, 0 < v) lives)) in
      let lost := series_sum lives in
      worst ← int (series_max lives);
      Ok (Shown {| top10 := top10;
                   table := table_row <$> top10;
                   stats := [("Total wrecks in this selection", total);
                             ("Wrecks with at least 1 life lost", with_loss);
                             ("Total lives lost in this selection", lost);
                             ("Maximum lives lost in a single wreck", worst)] |})
  end.

(** *** Map *)

Record MapView := {
  points : list (Row * list Z);   (* each row of [map_data] and its COLOR *)
  center_lat : option Qc;
  center_lon : option Qc
}.

(** [lambda x: [0, 180, 0, 160] if x == 0 else [220, 0, 0, 200]] *)
Definition color (x : Z) : list Z :=
  if x =? 0 then [0; 180; 0; 160] else [220; 0; 0; 200].

Definition show_map_view (filtered : DataFrame) : outcome (page MapView) :=
  let map_data := select filtered (column HAS_COORDS filtered) in
  match map_data with
  | [] => Ok (Info "No wrecks with valid coordinates for the current filters.")
  | _ :: _ =>
      let center_lat := series_mean (dropna (column LATITUDE map_data)) in
      let center_lon := series_mean (dropna (column LONGITUDE map_data)) in
      Ok (Shown {| points := (λ r, (r, color (LIVES_LOST_CLEAN r))) <$> map_data;
                   center_lat := center_lat;
                   center_lon := center_lon |})
  end.

(** ** The page *)

(** Strings are the UTF-8 bytes of the Python [str].  [blank s] is
    [s.strip() == ""]: every character of [s] is one that [str.strip]
    removes, which are U+0009 to U+000D, U+001C to U+0020, U+0085,
    U+00A0, U+1680, U+2000 to U+200A, U+2028, U+2029, U+202F, U+205F and
    U+3000. *)
Definition space1 (c : Ascii.ascii) : bool :=
  let n := Ascii.N_of_ascii c in
  ((9 <=? n) && (n <=? 13) || (28 <=? n) && (n <=? 32))%N.

Definition space2 (c d : Ascii.ascii) : bool :=
  let m := Ascii.N_of_ascii c in
  let n := Ascii.N_of_ascii d in
  ((m =? 194) && ((n =? 133) || (n =? 160)))%N.

Definition space3 (c d e : Ascii.ascii) : bool :=
  let l := Ascii.N_of_ascii c in
  let m := Ascii.N_of_ascii d in
  let n := Ascii.N_of_ascii e in
  ((l =? 225) && (m =? 154) && (n =? 128)
   || (l =? 226) && (m =? 128)
      && ((128 <=? n) && (n <=? 138) || (n =? 168) || (n =? 169) || (n =? 175))
   || (l =? 226) && (m =? 129) && (n =? 159)
   || (l =? 227) && (m =? 128) && (n =? 128))%N.

Fixpoint blank (s : string) : bool :=
  match s with
  | EmptyString => true
  | String c s1 =>
      if space1 c then blank s1
      else
        match s1 with
        | String d s2 =>
            if space2 c d then blank s2
            else
              match s2 with
              | String e s3 => if space3 c d e then blank s3 else false
              | EmptyString => false
              end
        | EmptyString => false
        end
  end.

(** [sorted([v for v in df["VESSEL TYPE"].dropna().unique()
    if str(v).strip() != ""])]: the values are distinct, so their order
    before the sort does not show. *)
Definition vessel_type_options (df : DataFrame) : list string :=
  merge_sort String.le
    (filter (λ v, blank v = false)
            (remove_dups (dropna (column VESSEL_TYPE df)))).

(** [vessel_types[:5] if len(vessel_types) >= 5 else vessel_types] *)
Definition default_types (vessel_types : list string) : list string :=
  if decide (5 ≤ length vessel_types)%nat then take 5 vessel_types
  else vessel_types.

(** The options of the radio button. *)
Inductive view := Map | VesselTypes | TimeTrends | DeadliestWrecks.

(** What [main] gives the widgets of the sidebar. *)
Record Sidebar := {
  slider_min : Z;                 (* [min_value] of the year slider *)
  slider_max : Z;                 (* [max_value] of the year slider *)
  type_options : list string;     (* [options] of the multiselect *)
  type_default : list string;     (* [default] of the multiselect *)
  lives_max : Z                   (* [max_value] of the number input *)
}.

(** What the widgets return: the choices of the user.  The checks the
    widgets make on their own arguments are Streamlit's and are not part
    of the model. *)
Record Choices := {
  year_range : Z * Z;
  selected_types : list string;
  min_lives : Z;
  view_choice : view
}.

(** The choices on the first run, when each widget returns its default:
    the whole range of the slider, the default of the multiselect, 0 and
    the first view. *)
Definition first_run (s : Sidebar) : Choices :=
  {| year_range := (slider_min s, slider_max s);
     selected_types := type_default s;
     min_lives := 0;
     view_choice := Map |}.

(** [main()], from the loaded table to the widgets of the sidebar: the
    limits of the slider, the options and the default of the multiselect
    and the upper bound of the number input, in the order of the code. *)
Definition main_setup (df : DataFrame) : outcome Sidebar :=
  limits ← get_year_limits df;
  let vessel_types := vessel_type_options df in
  most ← int (series_max (column LIVES_LOST_CLEAN df));
  Ok {| slider_min := limits.1;
        slider_max := limits.2;
        type_options := vessel_type_options df;
        type_default := default_types vessel_types;
        lives_max := most |}.

(** The call of [filter_wrecks] in [main()], with what the widgets
    returned. *)
Definition main_filter (df : DataFrame) (chosen : Choices) : DataFrame :=
  filter_wrecks df (year_range chosen) (Some (selected_types chosen))
    (min_lives chosen).

(** ** The filter criteria, in the words of the specification *)

(** Year predicate: the year is present and lies between the bounds, both
    ends included. *)
Definition year_predicate (year_range : Z * Z) (r : Row) : Prop :=
  match YEAR r with
  | Some y => year_range.1 ≤ y ∧ y ≤ year_range.2
  | None => False
  end.

(** Vessel-type predicate: with an empty or absent selection, the vessel
    type is present; otherwise it is a member of the selection. *)
Definition vessel_type_predicate (vessel_types : option (list string))
    (r : Row) : Prop :=
  match vessel_types with
  | None | Some [] => is_Some (VESSEL_TYPE r)
  | Some types => ∃ t, VESSEL_TYPE r = Some t ∧ t ∈ types
  end.

(** Lives-lost predicate. *)
Definition lives_lost_predicate (min_lives_lost : Z) (r : Row) : Prop :=
  min_lives_lost ≤ LIVES_LOST_CLEAN r.

(** A record satisfies the criteria when it satisfies the three at once. *)
Definition satisfies (year_range : Z * Z) (vessel_types : option (list string))
    (min_lives_lost : Z) (r : Row) : Prop :=
  year_predicate year_range r ∧ vessel_type_predicate vessel_types r
  ∧ lives_lost_predicate min_lives_lost r.

(** The mask of [filter_wrecks] at one row. *)
Definition type_mask_at (vessel_types : option (list string)) (r : Row) : bool :=
  match vessel_types with
  | None | Some [] => notna (VESSEL_TYPE r)
  | Some types => isin types (VESSEL_TYPE r)
  end.

Definition mask_at (year_range : Z * Z) (vessel_types : option (list string))
    (min_lives_lost : Z) (r : Row) : bool :=
  between year_range.1 year_range.2 (YEAR r) && type_mask_at vessel_types r
  && (min_lives_lost <=? LIVES_LOST_CLEAN r).

(** ** Ranges *)

(** Every year of the table is within 2^52 of 0, where the floating
    point arithmetic of the loader is exact. *)
Definition years_within (table : list CsvRow) : Prop :=
  Forall (λ c, match csv_year c with
               | Some y => - 2 ^ 52 < y < 2 ^ 52
               | None => True
               end) table.

(** Every number of lives lost that the frame holds is a number of int64
    that is not negative. *)
Definition lives_within (df : DataFrame) : Prop :=
  Forall (λ r, match LIVES_LOST r with
               | Some n => 0 ≤ n < 2 ^ 63
               | None => True
               end) df.

(** ** Sample tables *)

Definition wreck (name : string) (year : option Z) (vessel_type : option string)
    (lives_lost : option Z) : CsvRow :=
  {| csv_name := Some name; csv_year := year; csv_vessel_type := vessel_type;
     csv_lives_lost := lives_lost; csv_location := None; csv_cause := None;
     csv_latitude := None; csv_longitude := None |}.

(** The three records of the end-to-end scenario of the specification, a
    bark lost in the same years, and three records with a missing cell. *)
Definition sample_table : list CsvRow :=
  [ wreck "Alma" (Some 1850) (Some "Schooner") (Some 3);
    wreck "Belle" (Some 1850) (Some "Schooner") (Some 0);
    wreck "Ceres" (Some 1920) (Some "Steamer") (Some 50);
    wreck "Dora" (Some 1855) (Some "Bark") (Some 1);
    wreck "Etta" None (Some "Bark") (Some 7);
    wreck "Flora" (Some 1900) None (Some 7);
    wreck "Gull" (Some 1901) (Some "Brig") None ].

Definition sample : DataFrame := load_data sample_table.

(** The view of the sample for the years 1840 to 1860, with no selection of
    vessel types and no minimum of lives lost. *)
Definition sample_view : DataFrame := filter_wrecks sample (1840, 1860) None 0.

(** What the vessel-type view shows of [sample_view]. *)
Definition sample_chart : VesselChart :=
  {| bar_chart := [ {| label := 1; group := "Schooner"; WRECK_COUNT := 2 |};
                    {| label := 0; group := "Bark"; WRECK_COUNT := 1 |} ];
     most_frequent := ("Bark", 1%nat) |}.

(** The years of [sample_view], counted. *)
Definition sample_trend_line : list (Counted Z) :=
  [ {| label := 0; group := 1850; WRECK_COUNT := 2 |};
    {| label := 1; group := 1855; WRECK_COUNT := 1 |} ].

(** Two wrecks with coordinates and one without. *)
Definition charted_table : list CsvRow :=
  [ {| csv_name := Some "Alma"; csv_year := Some 1850;
       csv_vessel_type := Some "Schooner"; csv_lives_lost := Some 3;
       csv_location := Some "Nantucket"; csv_cause := Some "Storm";
       csv_latitude := Some (Qc_of_Z 41); csv_longitude := Some (Qc_of_Z (-70)) |};
    {| csv_name := Some "Belle"; csv_year := Some 1850;
       csv_vessel_type := Some "Schooner"; csv_lives_lost := None;
       csv_location := None; csv_cause := None;
       csv_latitude := Some (Qc_of_Z 43); csv_longitude := Some (Qc_of_Z (-68)) |};
    {| csv_name := Some "Dora"; csv_year := Some 1855;
       csv_vessel_type := Some "Bark"; csv_lives_lost := Some 1;
       csv_location := None; csv_cause := None;
       csv_latitude := Some (Qc_of_Z 42); csv_longitude := None |} ].

(** A year that no double divides by 100 without rounding, and a number
    of lives lost one above the greatest int64. *)
Definition far_table : list CsvRow :=
  [ wreck "Maud" (Some 99999999999999999) (Some "Brig")
          (Some 9223372036854775808) ].

(** A number of lives lost one above 2^53 in a column with a missing
    cell. *)
Definition far_lives_table : list CsvRow :=
  [ wreck "Pearl" (Some 1850) (Some "Brig") (Some 9007199254740993);
    wreck "Quail" (Some 1851) (Some "Brig") None ].

(** A year beyond 2^54 in a column with a missing year. *)
Definition far_float_table : list CsvRow :=
  [ wreck "Nell" (Some 18014398509481992) (Some "Brig") (Some 1);
    wreck "Opal" None (Some "Brig") None ].

(** The end-to-end scenario of the specification on its own. *)
Definition scenario : DataFrame :=
  load_data [ wreck "Alma" (Some 1850) (Some "Schooner") (Some 3);
              wreck "Belle" (Some 1850) (Some "Schooner") (Some 0);
              wreck "Ceres" (Some 1920) (Some "Steamer") (Some 50) ].


(** A table without a single year. *)
Definition undated_table : list CsvRow :=
  [ wreck "Kite" None (Some "Sloop") (Some 1); wreck "Lark" None None None ].

#[global] Instance year_predicate_dec yr r : Decision (year_predicate yr r).
Proof. unfold year_predicate. destruct (YEAR r); apply _. Defined.

#[global] Instance vessel_type_predicate_dec vts r :
  Decision (vessel_type_predicate vts r).
Proof.
  unfold vessel_type_predicate.
  destruct vts as [[|t0 types]|]; try apply _.
  destruct (VESSEL_TYPE r) as [t|].
  - destruct (decide (t ∈ t0 :: types)) as [Hin|Hout].
    + left. by exists t.
    + right. intros (t' & [= <-] & Hin). by apply Hout.
  - right. by intros (t' & [=] & _).
Defined.

#[global] Instance lives_lost_predicate_dec m r :
  Decision (lives_lost_predicate m r).
Proof. unfold lives_lost_predicate. apply _. Defined.

#[global] Instance satisfies_dec yr vts m r : Decision (satisfies yr vts m r).
Proof. unfold satisfies. apply _. Defined.

(** * Properties *)

(** ** Floating point within its exact range *)

Lemma nearest_even_exact w d : 0 < d → nearest_even (w * d) d = w.
Proof.
  intros Hd. unfold nearest_even. rewrite Z.mod_mul, Z.div_mul by lia.
  rewrite Z.mul_0_r. destruct (Z.compare_spec 0 d); [lia|done|lia].
Qed.

Lemma nearest_even_bounds n d :
  0 < d → n / d ≤ nearest_even n d ≤ n / d + 1.
Proof.
  intros Hd. unfold nearest_even.
  destruct (_ ?= _); [destruct (Z.even _)|..]; lia.
Qed.

Lemma Qred_inject_Z q w : q == inject_Z w → Qred q = inject_Z w.
Proof.
  intros Hq. rewrite (Qred_complete _ _ Hq).
  apply Qred_identity. simpl. apply Z.gcd_1_r.
Qed.

Lemma round_ratio_exact w d :
  0 < d → Z.abs w < 2 ^ 53 → round_ratio (w * d) d = inject_Z w.
Proof.
  intros Hd Hw. unfold round_ratio.
  destruct (Z.eqb_spec (w * d) 0) as [Hz|Hnz].
  { assert (w = 0) as -> by nia. done. }
  assert (w ≠ 0) as Hw0 by (intros ->; lia).
  assert (ilog2 (Z.abs (w * d)) d = Z.log2 (Z.abs w)) as ->.
  { unfold ilog2. rewrite Z.abs_mul, (Z.abs_eq d) by lia.
    rewrite Z.div_mul by lia.
    destruct (Z.leb_spec d (Z.abs w * d)); [done|]. nia. }
  assert (Z.log2 (Z.abs w) < 53) as Hlog by (apply Z.log2_lt_pow2; lia).
  set (e := Z.max (Z.log2 (Z.abs w) - 52) (-1074)).
  assert (e ≤ 0) as He by lia.
  destruct (Z.leb_spec 0 e) as [Hpos|Hneg].
  - assert (e = 0) as -> by lia. rewrite Z.pow_0_r, !Z.mul_1_r.
    by rewrite nearest_even_exact.
  - assert (0 < 2 ^ (- e)) as Hpow by (apply Z.pow_pos_nonneg; lia).
    replace (w * d * 2 ^ (- e)) with (w * 2 ^ (- e) * d) by ring.
    rewrite nearest_even_exact by done.
    apply Qred_inject_Z. unfold Qeq. simpl.
    rewrite Z2Pos.id by done. ring.
Qed.

Lemma round64_exact q w :
  q == inject_Z w → Z.abs w < 2 ^ 53 → round64 q = inject_Z w.
Proof.
  intros Hq Hw. unfold round64.
  assert (Qnum q = w * Z.pos (Qden q)) as ->.
  { unfold Qeq in Hq. simpl in Hq. lia. }
  by apply round_ratio_exact.
Qed.

Lemma Qfloor_Qred q : Qfloor (Qred q) = Qfloor q.
Proof. apply Qfloor_comp, Qred_correct. Qed.

Lemma floor_round_hundredth y :
  - 2 ^ 52 < y < 2 ^ 52 → Qfloor (round_ratio y 100) = y / 100.
Proof.
  intros Hy. unfold round_ratio.
  destruct (Z.eqb_spec y 0) as [->|Hnz]; [done|].
  set (e := Z.max (ilog2 (Z.abs y) 100 - 52) (-1074)).
  assert (e ≤ -7) as He.
  { assert (ilog2 (Z.abs y) 100 ≤ 45); [|lia]. unfold ilog2.
    destruct (Z.leb_spec 100 (Z.abs y)).
    - assert (Z.log2 (Z.abs y / 100) < 46); [|lia].
      apply Z.log2_lt_pow2.
      + apply Z.div_str_pos. lia.
      + apply Z.div_lt_upper_bound; lia.
    - pose proof (Z.log2_up_nonneg ((100 + Z.abs y - 1) / Z.abs y)). lia. }
  assert (-1074 ≤ e) as He' by lia.
  destruct (Z.leb_spec 0 e) as [Hpos|_]; [lia|].
  rewrite Qfloor_Qred. unfold Qfloor.
  set (P := 2 ^ (- e)).
  assert (2 ^ 7 ≤ P) as HP by (apply Z.pow_le_mono_r; lia).
  rewrite Z2Pos.id by lia.
  pose proof (nearest_even_bounds (y * P) 100 ltac:(lia)) as Hm.
  set (m := nearest_even (y * P) 100) in *.
  pose proof (Z.div_mod y 100 ltac:(lia)) as Hdiv.
  pose proof (Z.mod_pos_bound y 100 ltac:(lia)) as Hrem.
  pose proof (Z.div_mod (y * P) 100 ltac:(lia)) as Hdiv'.
  pose proof (Z.mod_pos_bound (y * P) 100 ltac:(lia)) as Hrem'.
  set (c := y / 100) in *. set (r := y `mod` 100) in *.
  set (q := y * P / 100) in *. set (r' := (y * P) `mod` 100) in *.
  change (2 ^ 7) with 128 in HP.
  symmetry. apply (Z.div_unique_pos m P c (m - c * P)); [|lia].
  assert (100 * q = 100 * c * P + r * P - r') as Hq by nia.
  split; nia.
Qed.

Lemma trunc_inject_Z z : trunc (inject_Z z) = z.
Proof. unfold trunc. simpl. apply Z.quot_1_r. Qed.

Lemma Qltb_inject_Z a b : Qltb (inject_Z a) (inject_Z b) = (a <? b).
Proof.
  unfold Qltb, Qle_bool. simpl. rewrite !Z.mul_1_r.
  destruct (Z.ltb_spec a b), (Z.leb_spec b a); simpl; lia.
Qed.

Lemma Qeq_bool_inject_Z a b : Qeq_bool (inject_Z a) (inject_Z b) = (a =? b).
Proof.
  unfold Qeq_bool. simpl. rewrite !Z.mul_1_r.
  by destruct (Z.eqb_spec a b).
Qed.

Lemma rem_10_bounds y :
  y = 10 * Z.quot y 10 + Z.rem y 10
  ∧ -10 < Z.rem y 10 < 10
  ∧ (0 ≤ y → 0 ≤ Z.rem y 10)
  ∧ (y ≤ 0 → Z.rem y 10 ≤ 0).
Proof.
  split; [apply Z.quot_rem'|]. pose proof (Z.quot_rem' y 10) as Heq.
  destruct (Z.le_ge_cases 0 y) as [Hy|Hy].
  - pose proof (Z.rem_bound_pos y 10 Hy ltac:(lia)). lia.
  - pose proof (Z.rem_bound_pos (- y) 10 ltac:(lia) ltac:(lia)) as H.
    rewrite Z.rem_opp_l in H by lia. lia.
Qed.

Lemma float_floordiv_10 y :
  - 2 ^ 52 < y < 2 ^ 52 →
  float_floordiv (inject_Z y) 10 = inject_Z (y / 10).
Proof.
  intros Hy. change (2 ^ 52) with 4503599627370496 in Hy.
  destruct (rem_10_bounds y) as (Hquot & Hrem & Hpos & Hneg).
  assert (fmod (inject_Z y) 10 = inject_Z (Z.rem y 10)) as Hmod.
  { unfold fmod. apply Qred_inject_Z.
    assert (trunc (inject_Z y / 10) = Z.quot y 10) as ->.
    { unfold trunc. simpl. by rewrite Z.mul_1_r. }
    unfold Qeq. simpl. lia. }
  assert (fsub (inject_Z y) (inject_Z (Z.rem y 10))
          = inject_Z (y - Z.rem y 10)) as Hsub.
  { apply round64_exact; [unfold Qeq; simpl; lia|].
    change (2 ^ 53) with 9007199254740992. lia. }
  assert (fdiv (inject_Z (y - Z.rem y 10)) 10 = inject_Z (Z.quot y 10))
    as Hdiv.
  { apply round64_exact; [unfold Qeq; simpl; lia|].
    change (2 ^ 53) with 9007199254740992. lia. }
  assert (y / 10 = if Z.rem y 10 <? 0 then Z.quot y 10 - 1 else Z.quot y 10)
    as Hfloor.
  { destruct (Z.ltb_spec (Z.rem y 10) 0).
    - symmetry. apply (Z.div_unique_pos y 10 _ (Z.rem y 10 + 10)); lia.
    - symmetry. apply (Z.div_unique_pos y 10 _ (Z.rem y 10)); lia. }
  unfold float_floordiv. rewrite Hmod, Hsub, Hdiv.
  change 0%Q with (inject_Z 0). change 10%Q with (inject_Z 10).
  change 1%Q with (inject_Z 1).
  rewrite !Qltb_inject_Z, !Qeq_bool_inject_Z.
  assert (negb (Z.rem y 10 =? 0) && negb (Bool.eqb (10 <? 0) (Z.rem y 10 <? 0))
          = (Z.rem y 10 <? 0)) as ->.
  { destruct (Z.ltb_spec (Z.rem y 10) 0), (Z.eqb_spec (Z.rem y 10) 0);
      simpl; lia. }
  assert ((if Z.rem y 10 <? 0 then fsub (inject_Z (Z.quot y 10)) (inject_Z 1)
           else inject_Z (Z.quot y 10)) = inject_Z (y / 10)) as ->.
  { rewrite Hfloor. destruct (Z.rem y 10 <? 0); [|done].
    apply round64_exact; [unfold Qeq; simpl; lia|].
    change (2 ^ 53) with 9007199254740992. lia. }
  rewrite Qeq_bool_inject_Z.
  destruct (Z.eqb_spec (y / 10) 0) as [->|Hnz]; [done|].
  rewrite Qfloor_Z.
  assert (fsub (inject_Z (y / 10)) (inject_Z (y / 10)) = inject_Z 0) as ->.
  { apply round64_exact; [unfold Qeq; simpl; lia|done]. }
  done.
Qed.

Lemma float_decade y :
  - 2 ^ 52 < y < 2 ^ 52 →
  trunc (fmul (float_floordiv (inject_Z y) 10) 10) = y / 10 * 10.
Proof.
  intros Hy. rewrite float_floordiv_10 by done.
  change (2 ^ 52) with 4503599627370496 in Hy.
  assert (fmul (inject_Z (y / 10)) 10 = inject_Z (y / 10 * 10)) as ->.
  { apply round64_exact; [unfold Qeq; simpl; lia|].
    change (2 ^ 53) with 9007199254740992.
    pose proof (Z.div_mod y 10 ltac:(lia)).
    pose proof (Z.mod_pos_bound y 10 ltac:(lia)). lia. }
  apply trunc_inject_Z.
Qed.

Lemma wrap64_id z : - 2 ^ 63 ≤ z < 2 ^ 63 → wrap64 z = z.
Proof.
  intros Hz. unfold wrap64. rewrite Z.mod_small; lia.
Qed.

Lemma wrap64_range z : - 2 ^ 63 ≤ wrap64 z < 2 ^ 63.
Proof.
  unfold wrap64. pose proof (Z.mod_pos_bound (z + 2 ^ 63) (2 ^ 64)). lia.
Qed.

Lemma century_of_exact y :
  - 2 ^ 52 < y < 2 ^ 52 → century_of (Some y) = Some (y / 100 + 1).
Proof.
  intros Hy. unfold century_of, fdiv, round64.
  change (Qnum (inject_Z y / 100)) with (y * 1).
  change (Z.pos (Qden (inject_Z y / 100))) with 100.
  by rewrite Z.mul_1_r, floor_round_hundredth.
Qed.

Lemma decade_of_exact floats y :
  - 2 ^ 52 < y < 2 ^ 52 → decade_of floats (Some y) = Some (y / 10 * 10).
Proof.
  intros Hy. unfold decade_of. destruct floats; [|done].
  by rewrite float_decade.
Qed.

Lemma held_exact floats z : Z.abs z < 2 ^ 53 → held floats z = z.
Proof.
  intros Hz. unfold held. destruct floats; [|done].
  rewrite (round64_exact _ z); [apply trunc_inject_Z|done..].
Qed.

(** ** Masks and selection *)

Lemma select_fmap {A} (f : A → bool) (l : list A) :
  select l (f <$> l) = filter (λ x, f x) l.
Proof.
  induction l as [|x l IH]; [done|].
  cbn [fmap list_fmap select]. rewrite filter_cons, IH.
  destruct (f x); by case_decide.
Qed.

Lemma zip_with_andb_fmap {A} (f g : A → bool) (l : list A) :
  zip_with andb (f <$> l) (g <$> l) = (λ x, f x && g x) <$> l.
Proof. induction l as [|x l IH]; [done|]. cbn. by rewrite IH. Qed.

Lemma filter_wrecks_mask df yr vts m :
  filter_wrecks df yr vts m = filter (λ r, mask_at yr vts m r) df.
Proof.
  unfold filter_wrecks, column.
  assert (match vts with
          | None | Some [] => notna <$> (VESSEL_TYPE <$> df)
          | Some types => isin types <$> (VESSEL_TYPE <$> df)
          end = type_mask_at vts <$> df) as ->.
  { unfold type_mask_at. destruct vts as [[|t0 types]|];
      by rewrite <-list_fmap_compose. }
  rewrite <-!list_fmap_compose, !zip_with_andb_fmap.
  apply select_fmap.
Qed.

Lemma between_spec lo hi c :
  between lo hi c ↔ ∃ y, c = Some y ∧ lo ≤ y ∧ y ≤ hi.
Proof.
  destruct c as [y|]; simpl.
  - rewrite andb_True, !Is_true_true, !Z.leb_le. naive_solver.
  - naive_solver.
Qed.

Lemma notna_spec {A} (c : option A) : notna c ↔ is_Some c.
Proof. destruct c; simpl; [by split; eauto|]. split; [done|]. by intros [? ?]. Qed.

Lemma isin_spec types c : isin types c ↔ ∃ t, c = Some t ∧ t ∈ types.
Proof.
  destruct c as [t|]; simpl.
  - rewrite bool_decide_spec. naive_solver.
  - naive_solver.
Qed.

Lemma type_mask_at_spec vts r :
  type_mask_at vts r ↔ vessel_type_predicate vts r.
Proof.
  unfold type_mask_at, vessel_type_predicate.
  destruct vts as [[|t0 types]|]; auto using notna_spec, isin_spec.
Qed.

Lemma mask_at_spec yr vts m r : mask_at yr vts m r ↔ satisfies yr vts m r.
Proof.
  unfold mask_at, satisfies.
  rewrite !andb_True, type_mask_at_spec, between_spec, Is_true_true, Z.leb_le.
  unfold year_predicate, lives_lost_predicate.
  destruct (YEAR r) as [y|]; naive_solver.
Qed.

Lemma filter_wrecks_filter df yr vts m :
  filter_wrecks df yr vts m = filter (satisfies yr vts m) df.
Proof. rewrite filter_wrecks_mask. apply list_filter_iff, mask_at_spec. Qed.

(** ** The filter engine *)




(** C7: filtering is idempotent: filtering a filtered view again with the
    same criteria returns it unchanged. *)
Theorem filter_wrecks_idempotent df yr vts m :
  filter_wrecks (filter_wrecks df yr vts m) yr vts m = filter_wrecks df yr vts m.
Proof.
  rewrite !filter_wrecks_filter, list_filter_filter.
  apply list_filter_iff. tauto.
Qed.

(** ** The loader *)

Lemma load_data_Forall (P : Row → Prop) table :
  (∀ c, c ∈ table →
        P (load_row (float_column (csv_year <$> table))
                    (float_column (csv_lives_lost <$> table))
                    (read_row (float_column (csv_year <$> table))
                              (float_column (csv_lives_lost <$> table)) c))) →
  Forall P (load_data table).
Proof.
  intros HP. unfold load_data. rewrite !Forall_fmap, Forall_forall.
  intros c Hc. by apply HP.
Qed.

Lemma load_row_exact year_floats lives_floats c :
  match csv_year c with
  | Some y => - 2 ^ 52 < y < 2 ^ 52
  | None => True
  end →
  let r := load_row year_floats lives_floats
             (read_row year_floats lives_floats c) in
  YEAR r = csv_year c
  ∧ DECADE r = (λ y, y / 10 * 10) <$> csv_year c
  ∧ CENTURY r = (λ y, y / 100 + 1) <$> csv_year c.
Proof.
  unfold YEAR. cbn [load_row read_row csv csv_year DECADE CENTURY].
  destruct (csv_year c) as [y|]; [|done]. intros Hy. cbn [fmap option_fmap option_map].
  change (2 ^ 52) with 4503599627370496 in Hy.
  rewrite (held_exact year_floats y)
    by (change (2 ^ 53) with 9007199254740992; lia).
  rewrite decade_of_exact, century_of_exact
    by (change (2 ^ 52) with 4503599627370496; lia).
  cbn [fmap option_fmap option_map].
  pose proof (Z.div_mod y 10 ltac:(lia)).
  pose proof (Z.mod_pos_bound y 10 ltac:(lia)).
  pose proof (Z.div_mod y 100 ltac:(lia)).
  pose proof (Z.mod_pos_bound y 100 ltac:(lia)).
  rewrite !held_exact; [done|change (2 ^ 53) with 9007199254740992; lia..].
Qed.

Lemma astype_int_id floats z : - 2 ^ 63 ≤ z < 2 ^ 63 → astype_int floats z = z.
Proof.
  intros Hz. unfold astype_int. destruct floats; [|by apply wrap64_id].
  destruct (Z.leb_spec (- 2 ^ 63) z), (Z.ltb_spec z (2 ^ 63)); simpl; lia.
Qed.

Lemma astype_int_range floats z : - 2 ^ 63 ≤ astype_int floats z < 2 ^ 63.
Proof.
  unfold astype_int. destruct floats; [|apply wrap64_range].
  destruct (Z.leb_spec (- 2 ^ 63) z), (Z.ltb_spec z (2 ^ 63)); simpl; lia.
Qed.

Lemma load_data_lives_lost_clean table :
  Forall (λ r, LIVES_LOST_CLEAN r
               = lives_lost_clean_of (float_column (csv_lives_lost <$> table))
                                     (LIVES_LOST r))
         (load_data table).
Proof. by apply load_data_Forall. Qed.

Lemma lives_within_clean table :
  lives_within (load_data table) →
  Forall (λ r, LIVES_LOST_CLEAN r = fillna 0 (LIVES_LOST r)
               ∧ 0 ≤ LIVES_LOST_CLEAN r) (load_data table).
Proof.
  intros Hsrc. pose proof (load_data_lives_lost_clean table) as Hclean.
  unfold lives_within in Hsrc. rewrite Forall_forall in Hsrc, Hclean.
  rewrite Forall_forall. intros r Hr.
  specialize (Hsrc r Hr). rewrite (Hclean r Hr). unfold lives_lost_clean_of.
  destruct (LIVES_LOST r) as [n|]; cbn [fillna].
  - rewrite astype_int_id by lia. lia.
  - by rewrite astype_int_id.
Qed.




(** C6, as the code has it: when every lives-lost cell of the loaded
    table is missing or a number from 0 to 2^63 - 1, every loaded row
    has [LIVES_LOST_CLEAN] equal to its lives lost, or to 0 when they
    are missing, hence not negative; and for every threshold [m] every
    row of a filtered view has [LIVES_LOST_CLEAN >= m]. *)
Theorem lives_lost_clean_invariant table :
  lives_within (load_data table) →
  Forall (λ r, match LIVES_LOST r with
               | Some n => LIVES_LOST_CLEAN r = n
               | None => LIVES_LOST_CLEAN r = 0
               end ∧ 0 ≤ LIVES_LOST_CLEAN r) (load_data table)
  ∧ ∀ yr vts m,
      Forall (λ r, m ≤ LIVES_LOST_CLEAN r)
             (filter_wrecks (load_data table) yr vts m).
Proof.
  intros Hsrc. split.
  - eapply Forall_impl; [by apply lives_within_clean|].
    intros r [Hclean Hpos]. split; [|done].
    by destruct (LIVES_LOST r).
  - intros yr vts m. rewrite filter_wrecks_filter, Forall_forall. intros r.
    rewrite list_elem_of_filter. by intros [(_ & _ & Hm) _].
Qed.

Lemma sample_lives_lost_clean :
  Forall (λ r, match LIVES_LOST r with
               | Some n => LIVES_LOST_CLEAN r = n
               | None => LIVES_LOST_CLEAN r = 0
               end ∧ 0 ≤ LIVES_LOST_CLEAN r) (load_data sample_table)
  ∧ ∀ yr vts m,
      Forall (λ r, m ≤ LIVES_LOST_CLEAN r)
             (filter_wrecks (load_data sample_table) yr vts m).
Proof.
  apply (lives_lost_clean_invariant sample_table).
  unfold lives_within. repeat constructor; by vm_compute.
Defined.

(** C6 as stated fails at 2^63 lives lost, a whole number that is not
    negative: [astype(int)] brings it into the range of int64, and the
    row is loaded with [LIVES_LOST_CLEAN] -2^63. *)
Lemma lives_lost_clean_wraps :
  column LIVES_LOST (load_data far_table) = [Some 9223372036854775808]
  ∧ column LIVES_LOST_CLEAN (load_data far_table) = [-9223372036854775808].
Proof. by vm_compute. Qed.

(** A column with a missing cell is float64 and holds the double nearest
    to a number: 2^53 + 1 is loaded as 2^53, in both columns. *)
Example far_lives_held :
  column LIVES_LOST (load_data far_lives_table)
  = [Some 9007199254740992; None]
  ∧ column LIVES_LOST_CLEAN (load_data far_lives_table)
    = [9007199254740992; 0].
Proof. by vm_compute. Qed.

(** ** Reductions over a series *)

Lemma foldl_min_spec (s : list Z) (x : Z) :
  foldl Z.min x s ∈ x :: s ∧ Forall (λ y, foldl Z.min x s ≤ y) (x :: s).
Proof.
  revert x. induction s as [|z s IH]; intros x; simpl.
  - split; [by left|]. repeat constructor. lia.
  - destruct (IH (Z.min x z)) as [Hin Hle].
    apply Forall_cons in Hle as [Hhd Hle]. split.
    + apply elem_of_cons in Hin as [->|Hin].
      * destruct (Z.min_spec x z) as [[_ ->]|[_ ->]]; rewrite !elem_of_cons; auto.
      * rewrite !elem_of_cons; auto.
    + repeat constructor; [lia..|done].
Qed.

Lemma foldl_max_spec (s : list Z) (x : Z) :
  foldl Z.max x s ∈ x :: s ∧ Forall (λ y, y ≤ foldl Z.max x s) (x :: s).
Proof.
  revert x. induction s as [|z s IH]; intros x; simpl.
  - split; [by left|]. repeat constructor. lia.
  - destruct (IH (Z.max x z)) as [Hin Hle].
    apply Forall_cons in Hle as [Hhd Hle]. split.
    + apply elem_of_cons in Hin as [->|Hin].
      * destruct (Z.max_spec x z) as [[_ ->]|[_ ->]]; rewrite !elem_of_cons; auto.
      * rewrite !elem_of_cons; auto.
    + repeat constructor; [lia..|done].
Qed.

Lemma series_min_spec (s : list Z) :
  s ≠ [] → ∃ lo, series_min s = Some lo ∧ lo ∈ s ∧ Forall (λ y, lo ≤ y) s.
Proof.
  destruct s as [|x s]; [done|]. intros _. eexists. split; [done|].
  apply foldl_min_spec.
Qed.

Lemma series_max_spec (s : list Z) :
  s ≠ [] → ∃ hi, series_max s = Some hi ∧ hi ∈ s ∧ Forall (λ y, y ≤ hi) s.
Proof.
  destruct s as [|x s]; [done|]. intros _. eexists. split; [done|].
  apply foldl_max_spec.
Qed.

Lemma elem_of_dropna {A} (s : list (option A)) (x : A) :
  x ∈ dropna s ↔ Some x ∈ s.
Proof.
  unfold dropna. rewrite list_elem_of_omap. split.
  - intros (c & Hc & Hid). simpl in Hid. by subst c.
  - intros Hx. by exists (Some x).
Qed.

Lemma dropna_nil {A} (s : list (option A)) :
  dropna s = [] ↔ Forall (λ c, c = None) s.
Proof.
  induction s as [|[x|] s IH]; simpl.
  - split; [by constructor|done].
  - split; [done|]. by intros [[=] _]%Forall_cons.
  - unfold dropna in IH. cbn. rewrite IH, Forall_cons. tauto.
Qed.

(** ** Year limits *)

(** C10: [get_year_limits] never raises.  When no row has a year (an
    empty frame included) it returns the pair (1705, 2000); otherwise it
    returns the least and the greatest of the years that are present. *)
Theorem get_year_limits_spec df :
  (Forall (λ r, YEAR r = None) df → get_year_limits df = Ok (1705, 2000))
  ∧ (Exists (λ r, is_Some (YEAR r)) df →
     ∃ lo hi, get_year_limits df = Ok (lo, hi)
       ∧ Some lo ∈ column YEAR df ∧ Some hi ∈ column YEAR df
       ∧ ∀ y, Some y ∈ column YEAR df → lo ≤ y ≤ hi).
Proof.
  unfold get_year_limits. split.
  - intros Hnone.
    assert (dropna (column YEAR df) = []) as ->; [|done].
    apply dropna_nil. unfold column. by rewrite Forall_fmap.
  - intros (r & Hr & [y0 Hy0])%Exists_exists.
    assert (dropna (column YEAR df) ≠ []) as Hne.
    { intros Hnil. assert (y0 ∈ dropna (column YEAR df)) as Hin.
      { apply elem_of_dropna. rewrite <-Hy0. by apply list_elem_of_fmap_2. }
      rewrite Hnil in Hin. by apply not_elem_of_nil in Hin. }
    destruct (series_min_spec _ Hne) as (lo & Hlo & Hloin & Hlole).
    destruct (series_max_spec _ Hne) as (hi & Hhi & Hhiin & Hhile).
    exists lo, hi. rewrite Hlo, Hhi.
    destruct (dropna (column YEAR df)) as [|y ys] eqn:Hyears; [done|].
    rewrite <-Hyears in *. split_and!; [done|by apply elem_of_dropna..|].
    intros y' Hy'%elem_of_dropna. rewrite Forall_forall in Hlole, Hhile.
    split; auto.
Qed.

Example get_year_limits_sample :
  get_year_limits sample = Ok (1850, 1920)
  ∧ get_year_limits (load_data undated_table) = Ok (1705, 2000)
  ∧ get_year_limits [] = Ok (1705, 2000).
Proof. done. Qed.

(** ** Sorting *)

Section sort_values_correct.
Context {A} (ge : relation A) `{∀ a b, Decision (ge a b)}.

Lemma insert_row_Permutation x l : insert_row ge x l ≡ₚ x :: l.
Proof.
  induction l as [|y l IH]; simpl; [done|].
  case_decide; [done|]. by rewrite IH, Permutation_swap.
Qed.

Lemma sort_values_Permutation l : sort_values ge l ≡ₚ l.
Proof.
  induction l as [|x l IH]; simpl; [done|].
  by rewrite insert_row_Permutation, IH.
Qed.

Lemma length_sort_values l : length (sort_values ge l) = length l.
Proof. by rewrite sort_values_Permutation. Qed.

Lemma elem_of_sort_values x l : x ∈ sort_values ge l ↔ x ∈ l.
Proof. by rewrite sort_values_Permutation. Qed.

Context `{!Total ge}.

Lemma HdRel_insert_row z x l :
  ge z x → HdRel ge z l → HdRel ge z (insert_row ge x l).
Proof. intros Hzx [|y l' Hzy]; simpl; [|case_decide]; by constructor. Qed.

Lemma Sorted_insert_row x l : Sorted ge l → Sorted ge (insert_row ge x l).
Proof.
  induction 1 as [|y l Hl IH Hhd]; simpl.
  - by repeat constructor.
  - case_decide as Hxy.
    + by repeat constructor.
    + constructor; [done|]. apply HdRel_insert_row; [|done].
      by destruct (total ge x y).
Qed.

Lemma Sorted_sort_values l : Sorted ge (sort_values ge l).
Proof.
  induction l as [|x l IH]; simpl; [constructor|].
  by apply Sorted_insert_row.
Qed.

Lemma StronglySorted_sort_values `{!Transitive ge} l :
  StronglySorted ge (sort_values ge l).
Proof. apply Sorted_StronglySorted; [done|]. apply Sorted_sort_values. Qed.
End sort_values_correct.

#[global] Instance lives_ge_total : Total lives_ge.
Proof. intros a b. unfold lives_ge. lia. Qed.

#[global] Instance lives_ge_trans : Transitive lives_ge.
Proof. intros a b c. unfold lives_ge. lia. Qed.

#[global] Instance count_ge_total {K} : Total (@count_ge K).
Proof. intros a b. unfold count_ge. lia. Qed.

#[global] Instance count_ge_trans {K} : Transitive (@count_ge K).
Proof. intros a b c. unfold count_ge. lia. Qed.

(** ** Deadliest wrecks *)

Lemma series_max_column_is_Some {A} (f : A → Z) (l : list A) :
  l ≠ [] → is_Some (series_max (f <$> l)).
Proof. destruct l; [done|]. intros _. simpl. eauto. Qed.

(** C8: on a view that is not empty the deadliest ranking shows at most
    10 rows, in non-increasing order of [LIVES_LOST_CLEAN]; they are rows
    of the view, none of the rows left out has a greater value than any
    of them, and a view of fewer than 10 rows is shown whole. *)
Theorem deadliest_ranking filtered :
  filtered ≠ [] →
  ∃ d, show_deadliest_view filtered = Ok (Shown d)
    ∧ length (top10 d) = (10 `min` length filtered)%nat
    ∧ StronglySorted (λ a b, LIVES_LOST_CLEAN b ≤ LIVES_LOST_CLEAN a) (top10 d)
    ∧ (∃ rest, top10 d ++ rest ≡ₚ filtered
         ∧ ∀ a b, a ∈ top10 d → b ∈ rest →
             LIVES_LOST_CLEAN b ≤ LIVES_LOST_CLEAN a)
    ∧ ((length filtered < 10)%nat → top10 d ≡ₚ filtered).
Proof.
  intros Hne. unfold show_deadliest_view.
  destruct filtered as [|r0 rs] eqn:Hfiltered; [done|]. rewrite <-Hfiltered.
  assert (filtered ≠ []) as Hne' by (by subst).
  destruct (series_max_column_is_Some LIVES_LOST_CLEAN filtered Hne')
    as [worst Hworst].
  unfold column. rewrite Hworst. eexists. split; [done|]. cbn [top10].
  clear Hworst Hne Hne' Hfiltered r0 rs.
  pose proof (StronglySorted_sort_values lives_ge filtered) as Hsorted.
  rewrite <-(take_drop 10 (sort_values lives_ge filtered)) in Hsorted.
  apply StronglySorted_app in Hsorted as (Hcross & Htop & _).
  unfold head, sort_by_lives. split_and!.
  - by rewrite length_take, length_sort_values.
  - done.
  - exists (drop 10 (sort_values lives_ge filtered)). split.
    + by rewrite take_drop, sort_values_Permutation.
    + intros a b Ha Hb. by apply Hcross.
  - intros Hlt. rewrite take_ge by (rewrite length_sort_values; lia).
    apply sort_values_Permutation.
Qed.

Lemma sample_deadliest :
  ∃ d, show_deadliest_view sample = Ok (Shown d)
    ∧ length (top10 d) = (10 `min` length sample)%nat
    ∧ StronglySorted (λ a b, LIVES_LOST_CLEAN b ≤ LIVES_LOST_CLEAN a) (top10 d)
    ∧ (∃ rest, top10 d ++ rest ≡ₚ sample
         ∧ ∀ a b, a ∈ top10 d → b ∈ rest →
             LIVES_LOST_CLEAN b ≤ LIVES_LOST_CLEAN a)
    ∧ ((length sample < 10)%nat → top10 d ≡ₚ sample).
Proof. apply (deadliest_ranking sample). discriminate. Defined.

(** ** Grouped counts *)

Section groupby_count.
Context {K} `{EqDecision K} (le : relation K) `{∀ x y, Decision (le x y)}.
Context (key : Row → option K).

Lemma groupby_count_keys df :
  fst <$> groupby_count le key df
  = merge_sort le (remove_dups (dropna (column key df))).
Proof.
  unfold groupby_count. rewrite <-list_fmap_compose.
  apply list_fmap_id.
Qed.

(** The groups are the keys that occur, each once. *)
Lemma elem_of_groupby_count_keys df k :
  k ∈ fst <$> groupby_count le key df ↔ ∃ r, r ∈ df ∧ key r = Some k.
Proof.
  rewrite groupby_count_keys, merge_sort_Permutation, elem_of_remove_dups,
    elem_of_dropna. unfold column. rewrite list_elem_of_fmap. naive_solver.
Qed.

Lemma NoDup_groupby_count_keys df : NoDup (fst <$> groupby_count le key df).
Proof.
  rewrite groupby_count_keys, merge_sort_Permutation. apply NoDup_remove_dups.
Qed.

(** The keys are in ascending order. *)
Lemma Sorted_groupby_count_keys `{!Total le} df :
  Sorted le (fst <$> groupby_count le key df).
Proof. rewrite groupby_count_keys. by apply Sorted_merge_sort. Qed.

(** The count of a group is the number of its rows that have a name. *)
Lemma elem_of_groupby_count df k n :
  (k, n) ∈ groupby_count le key df →
  n = length (filter (λ r, is_Some (SHIPS_NAME r)) (group_rows key k df)).
Proof.
  unfold groupby_count. rewrite list_elem_of_fmap.
  intros (k' & Heq & _). simpl in Heq. injection Heq as Hk Hn. subst k' n.
  unfold count_names, column, dropna.
  generalize (group_rows key k df). intros g.
  induction g as [|r g IH]; [done|].
  rewrite filter_cons. cbn [fmap list_fmap omap list_omap].
  destruct (SHIPS_NAME r); simpl; [by f_equal|done].
Qed.

Lemma groupby_count_nonempty df r :
  r ∈ df → is_Some (key r) → groupby_count le key df ≠ [].
Proof.
  intros Hr [k Hk] Hnil.
  assert (k ∈ fst <$> groupby_count le key df) as Hin
    by (apply elem_of_groupby_count_keys; eauto).
  rewrite Hnil in Hin. by apply not_elem_of_nil in Hin.
Qed.
End groupby_count.

Lemma reset_index_label {K} (s : list (K * nat)) (c : Counted K) :
  c ∈ reset_index s → (label c < length s)%nat.
Proof.
  unfold reset_index. rewrite elem_of_lookup_imap.
  intros (i & kc & -> & Hi). simpl. by eapply lookup_lt_Some.
Qed.

Lemma length_reset_index {K} (s : list (K * nat)) :
  length (reset_index s) = length s.
Proof. apply length_imap. Qed.

Lemma idxmax_from_sorted (best : nat * nat) (s : list (nat * nat)) :
  Forall (λ x, (x.2 ≤ best.2)%nat) s → idxmax_from best s = best.1.
Proof.
  induction 1 as [|x s Hx _ IH]; simpl; [done|].
  by rewrite (proj2 (Nat.ltb_ge _ _) Hx).
Qed.

(** On a frame sorted by descending count, [idxmax] is the label of the
    first row. *)
Lemma idxmax_sort_by_count {K} (top : Counted K) (rest : list (Counted K)) :
  StronglySorted count_ge (top :: rest) →
  idxmax (count_series (top :: rest)) = Ok (label top).
Proof.
  intros [Hrest _]%StronglySorted_cons. simpl. f_equal.
  rewrite idxmax_from_sorted; [done|].
  unfold count_series. rewrite Forall_fmap. simpl.
  eapply Forall_impl; [exact Hrest|]. by intros c Hc.
Qed.

(** ** Vessel types *)

Lemma filter_wrecks_vessel_type_present df yr vts m r :
  r ∈ filter_wrecks df yr vts m → is_Some (VESSEL_TYPE r).
Proof.
  rewrite filter_wrecks_filter, list_elem_of_filter.
  intros [(_ & Ht & _) _]. unfold vessel_type_predicate in Ht.
  destruct vts as [[|t0 types]|]; [done| |done].
  destruct Ht as (t & -> & _). eauto.
Qed.

(** The frame of the bar chart is in non-increasing order of count. *)
Lemma sort_by_count_sorted {K} (counts : list (Counted K)) :
  StronglySorted (λ a b, (WRECK_COUNT b ≤ WRECK_COUNT a)%nat)
                 (sort_by_count counts).
Proof. apply (StronglySorted_sort_values count_ge). Qed.

(** What the view reports on a frame with a vessel type in it: the row of
    the sorted frame at the position that is the label of its first row. *)
Lemma show_vessel_chart_view_reports filtered r :
  r ∈ filtered → is_Some (VESSEL_TYPE r) →
  ∃ top rest row,
    sort_by_count (reset_index (groupby_count String.le VESSEL_TYPE filtered))
    = top :: rest
    ∧ (top :: rest) !! label top = Some row
    ∧ show_vessel_chart_view filtered
      = Ok (Shown {| bar_chart := top :: rest;
                     most_frequent := (group row, WRECK_COUNT row) |}).
Proof.
  intros Hr Htype.
  pose proof (groupby_count_nonempty String.le VESSEL_TYPE filtered r Hr Htype)
    as Hgroups.
  set (groups := groupby_count String.le VESSEL_TYPE filtered) in *.
  pose proof (sort_by_count_sorted (reset_index groups)) as Hsorted.
  assert (length (sort_by_count (reset_index groups)) = length groups) as Hlen.
  { unfold sort_by_count. by rewrite length_sort_values, length_reset_index. }
  assert (∀ c, c ∈ sort_by_count (reset_index groups) →
               (label c < length groups)%nat) as Hlabel.
  { intros c Hc. apply reset_index_label.
    by apply (elem_of_sort_values count_ge). }
  unfold show_vessel_chart_view. fold groups.
  destruct (sort_by_count (reset_index groups)) as [|top rest] eqn:Hcounts.
  { destruct groups; [done|]. simpl in Hlen. lia. }
  assert (is_Some ((top :: rest) !! label top)) as [row Hrow].
  { apply lookup_lt_is_Some_2. rewrite Hlen. apply Hlabel. by left. }
  exists top, rest, row. split_and!; [done..|].
  destruct filtered as [|r0 rs]; [by apply not_elem_of_nil in Hr|].
  rewrite idxmax_sort_by_count by done.
  unfold iloc. cbn [mbind outcome_bind]. by rewrite Hrow.
Qed.

(** C2, at the view of the sample: of the two groups, Schooner with 2
    wrecks and Bark with 1, the sentence under the chart names Bark, with
    1 wreck, as the most frequent.  The sorted frame gives Schooner the
    label 1, [idxmax] returns that label, and [iloc] reads it as a
    position. *)
Theorem vessel_chart_most_frequent_sample :
  column SHIPS_NAME sample_view = [Some "Alma"; Some "Belle"; Some "Dora"]
  ∧ column VESSEL_TYPE sample_view
    = [Some "Schooner"; Some "Schooner"; Some "Bark"]
  ∧ show_vessel_chart_view sample_view
    = Ok (Shown {| bar_chart :=
                     [ {| label := 1; group := "Schooner"; WRECK_COUNT := 2 |};
                       {| label := 0; group := "Bark"; WRECK_COUNT := 1 |} ];
                   most_frequent := ("Bark", 1%nat) |}).
Proof. by vm_compute. Qed.

(** A frame with rows but no vessel type at all is not a filtered view:
    on it the counts are empty and [idxmax] raises. *)
Example vessel_chart_without_types :
  show_vessel_chart_view (load_data [wreck "Lark" None None None])
  = Raise ValueError.
Proof. done. Qed.

(** ** Empty views *)

(** C9: every view answers an empty view with its message and raises
    nothing; on every filtered view, empty or not, no view raises; and
    the deadliest view takes the maximum and the sum of
    [LIVES_LOST_CLEAN] only on a view with a row in it, where the maximum
    exists. *)
Theorem views_guard_empty_results :
  (show_map_view []
     = Ok (Info "No wrecks with valid coordinates for the current filters.")
   ∧ show_vessel_chart_view [] = Ok (Info "No wrecks match the current filters.")
   ∧ show_time_trend_view [] = Ok (Info "No wrecks match the current filters.")
   ∧ show_deadliest_view [] = Ok (Info "No wrecks match the current filters."))
  ∧ (∀ df yr vts m,
       (∃ p, show_map_view (filter_wrecks df yr vts m) = Ok p)
       ∧ (∃ p, show_vessel_chart_view (filter_wrecks df yr vts m) = Ok p)
       ∧ (∃ p, show_time_trend_view (filter_wrecks df yr vts m) = Ok p)
       ∧ (∃ p, show_deadliest_view (filter_wrecks df yr vts m) = Ok p))
  ∧ (∀ filtered,
       match filtered with
       | [] => show_deadliest_view filtered
               = Ok (Info "No wrecks match the current filters.")
       | _ :: _ =>
           ∃ d worst,
             show_deadliest_view filtered = Ok (Shown d)
             ∧ series_max (column LIVES_LOST_CLEAN filtered) = Some worst
             ∧ stats d !! 2%nat
               = Some ("Total lives lost in this selection",
                       series_sum (column LIVES_LOST_CLEAN filtered))
             ∧ stats d !! 3%nat
               = Some ("Maximum lives lost in a single wreck", worst)
       end).
Proof.
  split_and!; [done..| |].
  - intros df yr vts m.
    pose proof (filter_wrecks_vessel_type_present df yr vts m) as Htype.
    set (filtered := filter_wrecks df yr vts m) in *. split_and!.
    + unfold show_map_view. destruct (select _ _); eauto.
    + destruct filtered as [|r0 rs] eqn:Hfiltered; [by eexists|].
      destruct (show_vessel_chart_view_reports (r0 :: rs) r0)
        as (top & rest & row & _ & _ & ->); [by left|apply Htype; by left|].
      by eexists.
    + destruct filtered; by eexists.
    + destruct filtered; by eexists.
  - intros [|r0 rs]; [done|]. by do 2 eexists.
Qed.

(** ** The end-to-end scenario *)

Example scenario_filtered :
  column SHIPS_NAME (filter_wrecks scenario (1840, 1860) None 0)
  = [Some "Alma"; Some "Belle"].
Proof. done. Qed.

Example scenario_type_counts :
  show_vessel_chart_view (filter_wrecks scenario (1840, 1860) None 0)
  = Ok (Shown {| bar_chart :=
                   [ {| label := 0; group := "Schooner"; WRECK_COUNT := 2 |} ];
                 most_frequent := ("Schooner", 2%nat) |}).
Proof. by vm_compute. Qed.

Example scenario_deadliest :
  (λ d, (column SHIPS_NAME (top10 d), stats d)) <$>
    (match show_deadliest_view (filter_wrecks scenario (1840, 1860) None 0) with
     | Ok (Shown d) => Some d
     | _ => None
     end)
  = Some ([Some "Alma"; Some "Belle"],
          [("Total wrecks in this selection", 2);
           ("Wrecks with at least 1 life lost", 1);
           ("Total lives lost in this selection", 3);
           ("Maximum lives lost in a single wreck", 3)]).
Proof. by vm_compute. Qed.

(** * Further properties of the code *)

(** ** Decades *)

(** X1: on a table whose years are within 2^52 of 0, a loaded row with
    a year has the decade [year // 10 * 10]: a multiple of 10, at most
    the year and less than 10 below it; a row without a year has no
    decade. *)
Theorem decade_derivation table :
  years_within table →
  Forall (λ r, match YEAR r with
               | Some y => ∃ d, DECADE r = Some d ∧ d = y / 10 * 10
                                ∧ d `mod` 10 = 0 ∧ d ≤ y < d + 10
               | None => DECADE r = None
               end) (load_data table).
Proof.
  intros Hyears. apply load_data_Forall. intros c Hc.
  unfold years_within in Hyears. rewrite Forall_forall in Hyears.
  destruct (load_row_exact (float_column (csv_year <$> table))
              (float_column (csv_lives_lost <$> table)) c (Hyears c Hc))
    as (-> & -> & _).
  destruct (csv_year c) as [y|]; simpl; [|done].
  exists (y / 10 * 10). split_and!; [done..| | |].
  - by rewrite Z.mod_mul.
  - pose proof (Z.mul_div_le y 10). lia.
  - pose proof (Z.mul_succ_div_gt y 10). lia.
Qed.

Lemma sample_decade_derivation :
  Forall (λ r, match YEAR r with
               | Some y => ∃ d, DECADE r = Some d ∧ d = y / 10 * 10
                                ∧ d `mod` 10 = 0 ∧ d ≤ y < d + 10
               | None => DECADE r = None
               end) (load_data sample_table).
Proof.
  apply (decade_derivation sample_table).
  unfold years_within, sample_table. repeat constructor; by vm_compute.
Defined.

(** Beyond that range the decade of a float64 column is rounded: the
    year 18014398509481992 keeps itself as its decade. *)
Example far_float_decade :
  column YEAR (load_data far_float_table) = [Some 18014398509481992; None]
  ∧ column DECADE (load_data far_float_table)
    = [Some 18014398509481992; None].
Proof. by vm_compute. Qed.

(** X2: the two derived columns agree on a table whose years are within
    2^52 of 0: the century of a loaded row is the century of its decade,
    so the rows of one decade are rows of one century. *)
Theorem century_of_decade table :
  years_within table →
  Forall (λ r, CENTURY r = (λ d, d / 100 + 1) <$> DECADE r) (load_data table).
Proof.
  intros Hyears. apply load_data_Forall. intros c Hc.
  unfold years_within in Hyears. rewrite Forall_forall in Hyears.
  destruct (load_row_exact (float_column (csv_year <$> table))
              (float_column (csv_lives_lost <$> table)) c (Hyears c Hc))
    as (_ & -> & ->).
  destruct (csv_year c) as [y|]; simpl; [|done].
  do 2 f_equal. change 100 with (10 * 10).
  rewrite Z.div_mul_cancel_r by lia. by rewrite Z.div_div by lia.
Qed.

Lemma sample_century_of_decade :
  Forall (λ r, CENTURY r = (λ d, d / 100 + 1) <$> DECADE r)
         (load_data sample_table).
Proof.
  apply (century_of_decade sample_table).
  unfold years_within, sample_table. repeat constructor; by vm_compute.
Defined.

(** ** Composing filters *)

(** X3: two filters commute: the order in which two sets of criteria are
    applied does not change the view. *)
Theorem filter_wrecks_commute df yr1 vts1 m1 yr2 vts2 m2 :
  filter_wrecks (filter_wrecks df yr1 vts1 m1) yr2 vts2 m2
  = filter_wrecks (filter_wrecks df yr2 vts2 m2) yr1 vts1 m1.
Proof.
  rewrite !filter_wrecks_filter, !list_filter_filter.
  apply list_filter_iff. tauto.
Qed.

(** X4: narrowing the criteria of a view and filtering the view again is
    the same as filtering the table with the narrower criteria: for a
    year range inside the first and a threshold at least the first, with
    the same selection of vessel types or with any selection after none. *)
Theorem filter_wrecks_narrow df lo hi m lo' hi' m' vts :
  lo' ≤ lo → hi ≤ hi' → m' ≤ m →
  filter_wrecks (filter_wrecks df (lo', hi') vts m') (lo, hi) vts m
  = filter_wrecks df (lo, hi) vts m
  ∧ filter_wrecks (filter_wrecks df (lo', hi') None m') (lo, hi) vts m
    = filter_wrecks df (lo, hi) vts m.
Proof.
  intros Hlo Hhi Hm.
  rewrite !filter_wrecks_filter, !list_filter_filter.
  split; apply list_filter_iff; intros r;
    unfold satisfies, year_predicate, lives_lost_predicate; simpl;
    (split; [tauto|]); intros (Hy & Ht & Hl); (split; [done|]).
  - destruct (YEAR r); [|done]. split_and!; [lia..|done|lia].
  - destruct (YEAR r); [|done]. split_and!; [lia..| |lia].
    unfold vessel_type_predicate in *.
    destruct vts as [[|t0 types]|]; [done| |done].
    destruct Ht as (t & -> & _). eauto.
Qed.

Lemma sample_filter_narrow :
  filter_wrecks (filter_wrecks sample (1840, 1930) None 0) (1850, 1920) None 1
  = filter_wrecks sample (1850, 1920) None 1
  ∧ filter_wrecks (filter_wrecks sample (1840, 1930) None 0) (1850, 1920) None 1
    = filter_wrecks sample (1850, 1920) None 1.
Proof. apply (filter_wrecks_narrow sample 1850 1920 1 1840 1930 0 None); lia. Defined.




Lemma filter_ext_elem_of {A} (P Q : A → Prop) `{∀ x, Decision (P x)}
    `{∀ x, Decision (Q x)} (l : list A) :
  (∀ x, x ∈ l → P x ↔ Q x) → filter P l = filter Q l.
Proof.
  induction l as [|x l IH]; intros HPQ; [done|].
  rewrite !filter_cons, IH by (intros y Hy; apply HPQ; by right).
  destruct (HPQ x) as [HP HQ]; [by left|].
  destruct (decide (P x)), (decide (Q x)); tauto.
Qed.

(** ** The year slider *)

Lemma get_year_limits_present df y ys :
  dropna (column YEAR df) = y :: ys →
  get_year_limits df = Ok (foldl Z.min y ys, foldl Z.max y ys).
Proof. unfold get_year_limits. by intros ->. Qed.

Lemma get_year_limits_bounds df lo hi :
  get_year_limits df = Ok (lo, hi) →
  lo ≤ hi ∧ ∀ r y, r ∈ df → YEAR r = Some y → lo ≤ y ≤ hi.
Proof.
  destruct (dropna (column YEAR df)) as [|y0 ys] eqn:Hyears.
  - unfold get_year_limits. rewrite Hyears. intros [= <- <-]. split; [lia|].
    intros r y Hr Hy. apply dropna_nil in Hyears.
    unfold column in Hyears. rewrite Forall_fmap, Forall_forall in Hyears.
    specialize (Hyears r Hr). simpl in Hyears. congruence.
  - rewrite (get_year_limits_present df y0 ys Hyears). intros [= <- <-].
    destruct (foldl_min_spec ys y0) as [_ Hmin].
    destruct (foldl_max_spec ys y0) as [_ Hmax].
    rewrite Forall_forall in Hmin, Hmax. split.
    + specialize (Hmin y0 ltac:(by left)). specialize (Hmax y0 ltac:(by left)).
      simpl in *. lia.
    + intros r y Hr Hy.
      assert (y ∈ y0 :: ys) as Hin.
      { rewrite <-Hyears. apply elem_of_dropna. rewrite <-Hy.
        by apply list_elem_of_fmap_2. }
      specialize (Hmin y Hin). specialize (Hmax y Hin). simpl in *. lia.
Qed.

Lemma get_year_limits_Ok df : ∃ lo hi, get_year_limits df = Ok (lo, hi).
Proof.
  unfold get_year_limits. destruct (dropna (column YEAR df)); by do 2 eexists.
Qed.

(** X7: the bounds [get_year_limits] hands to the slider are always in
    order, the fallback pair included. *)
Theorem get_year_limits_ordered df :
  ∃ lo hi, get_year_limits df = Ok (lo, hi) ∧ lo ≤ hi.
Proof.
  destruct (get_year_limits_Ok df) as (lo & hi & Hlimits).
  exists lo, hi. split; [done|]. by apply (get_year_limits_bounds df).
Qed.

Lemma filter_wrecks_within_limits df yr vts m :
  get_year_limits df = Ok yr →
  filter_wrecks df yr vts m
  = filter (λ r, is_Some (YEAR r) ∧ vessel_type_predicate vts r
                 ∧ lives_lost_predicate m r) df.
Proof.
  destruct yr as [lo hi]. intros [_ Hin]%get_year_limits_bounds.
  rewrite filter_wrecks_filter. apply filter_ext_elem_of. intros r Hr.
  unfold satisfies, year_predicate. simpl.
  destruct (YEAR r) as [y|] eqn:Hy.
  - specialize (Hin r y Hr Hy).
    split; [intros (_ & ? & ?); split_and!; [by eexists|done|done]|].
    intros (_ & ? & ?).
    split_and!; [lia..|done|done].
  - split; [tauto|]. by intros ([? ?] & _).
Qed.

(** X8: with the year range that [get_year_limits] returns for a table,
    the year test of the filter only asks for a year: no dated row of
    that table is left out on account of its year. *)
Theorem filter_wrecks_full_range df yr vts m :
  get_year_limits df = Ok yr →
  filter_wrecks df yr vts m
  = filter (λ r, is_Some (YEAR r) ∧ vessel_type_predicate vts r
                 ∧ lives_lost_predicate m r) df.
Proof. apply filter_wrecks_within_limits. Qed.

Lemma sample_full_range :
  filter_wrecks sample (1850, 1920) None 0
  = filter (λ r, is_Some (YEAR r) ∧ vessel_type_predicate None r
                 ∧ lives_lost_predicate 0 r) sample.
Proof. by apply (filter_wrecks_full_range sample (1850, 1920) None 0). Defined.

(** ** The vessel-type chart *)

Lemma group_reset_index {K} (s : list (K * nat)) :
  group <$> reset_index s = fst <$> s.
Proof. unfold reset_index. rewrite fmap_imap. apply imap_const. Qed.

Lemma count_reset_index {K} (s : list (K * nat)) :
  WRECK_COUNT <$> reset_index s = snd <$> s.
Proof. unfold reset_index. rewrite fmap_imap. apply imap_const. Qed.

Lemma label_reset_index {K} (s : list (K * nat)) :
  label <$> reset_index s = seq 0 (length s).
Proof.
  unfold reset_index. rewrite fmap_imap.
  rewrite (imap_ext _ (λ i _, i)) by done.
  apply list_eq. intros i. rewrite list_lookup_imap.
  destruct (s !! i) as [kc|] eqn:Hi; simpl.
  - symmetry. apply lookup_seq. split; [done|]. by eapply lookup_lt_Some.
  - symmetry. apply lookup_seq_ge. by apply lookup_ge_None.
Qed.

Lemma elem_of_reset_index {K} (s : list (K * nat)) (c : Counted K) :
  c ∈ reset_index s → (group c, WRECK_COUNT c) ∈ s.
Proof.
  unfold reset_index. rewrite elem_of_lookup_imap.
  intros (i & [k n] & -> & Hi). simpl. by eapply list_elem_of_lookup_2.
Qed.

Lemma groupby_count_no_keys {K} `{EqDecision K} (le : relation K)
    `{∀ x y, Decision (le x y)} (key : Row → option K) (df : DataFrame) :
  Forall (λ r, key r = None) df → groupby_count le key df = [].
Proof.
  intros Hnone. unfold groupby_count.
  assert (dropna (column key df) = []) as ->; [|done].
  apply dropna_nil. unfold column. by rewrite Forall_fmap.
Qed.

(** What a chart that is shown was computed from. *)
Lemma show_vessel_chart_view_shown filtered v :
  show_vessel_chart_view filtered = Ok (Shown v) →
  bar_chart v
  = sort_by_count (reset_index (groupby_count String.le VESSEL_TYPE filtered))
  ∧ ∃ r, r ∈ filtered ∧ is_Some (VESSEL_TYPE r).
Proof.
  intros Hshown.
  destruct (decide (Forall (λ r, VESSEL_TYPE r = None) filtered)) as [Hnone|Hsome].
  - unfold show_vessel_chart_view in Hshown.
    rewrite (groupby_count_no_keys String.le VESSEL_TYPE filtered Hnone)
      in Hshown.
    by destruct filtered.
  - apply (not_Forall_Exists (λ r : Row, VESSEL_TYPE r = None)) in Hsome.
    apply Exists_exists in Hsome as (r & Hr & Htype).
    assert (is_Some (VESSEL_TYPE r)) as Hty.
    { simpl in Htype. destruct (VESSEL_TYPE r); [by eexists|done]. }
    destruct (show_vessel_chart_view_reports filtered r Hr Hty)
      as (top & rest & row & Hcounts & _ & Hview).
    rewrite Hview in Hshown. injection Hshown as <-. simpl.
    split; [done|]. by exists r.
Qed.

(** X9: the frame of a chart that is shown.  It is in non-increasing
    order of count; it has one row for each vessel type that occurs in
    the view and no other; the count of a row is the number of rows of
    the view that have that type and a name; and the labels of its rows
    are the positions 0, 1, ... in some order. *)
Theorem vessel_chart_bars filtered v :
  show_vessel_chart_view filtered = Ok (Shown v) →
  StronglySorted (λ a b, (WRECK_COUNT b ≤ WRECK_COUNT a)%nat) (bar_chart v)
  ∧ NoDup (group <$> bar_chart v)
  ∧ (∀ t, t ∈ group <$> bar_chart v ↔ Some t ∈ column VESSEL_TYPE filtered)
  ∧ (∀ c, c ∈ bar_chart v →
       WRECK_COUNT c
       = length (filter (λ r, is_Some (SHIPS_NAME r)
                              ∧ VESSEL_TYPE r = Some (group c)) filtered))
  ∧ label <$> bar_chart v ≡ₚ seq 0 (length (bar_chart v)).
Proof.
  intros [-> _]%show_vessel_chart_view_shown.
  set (groups := groupby_count String.le VESSEL_TYPE filtered).
  assert (sort_by_count (reset_index groups) ≡ₚ reset_index groups) as Hperm
    by apply sort_values_Permutation.
  split_and!.
  - apply sort_by_count_sorted.
  - rewrite Hperm, group_reset_index. apply NoDup_groupby_count_keys.
  - intros t. rewrite Hperm, group_reset_index.
    unfold groups. rewrite elem_of_groupby_count_keys.
    unfold column. rewrite list_elem_of_fmap. naive_solver.
  - intros c Hc. rewrite Hperm in Hc. apply elem_of_reset_index in Hc.
    apply elem_of_groupby_count in Hc. rewrite Hc.
    unfold group_rows. by rewrite list_filter_filter.
  - rewrite Hperm, label_reset_index, length_reset_index. done.
Qed.

Lemma sample_chart_bars :
  StronglySorted (λ a b, (WRECK_COUNT b ≤ WRECK_COUNT a)%nat)
                 (bar_chart sample_chart)
  ∧ NoDup (group <$> bar_chart sample_chart)
  ∧ (∀ t, t ∈ group <$> bar_chart sample_chart
          ↔ Some t ∈ column VESSEL_TYPE sample_view)
  ∧ (∀ c, c ∈ bar_chart sample_chart →
       WRECK_COUNT c
       = length (filter (λ r, is_Some (SHIPS_NAME r)
                              ∧ VESSEL_TYPE r = Some (group c)) sample_view))
  ∧ label <$> bar_chart sample_chart ≡ₚ seq 0 (length (bar_chart sample_chart)).
Proof. apply (vessel_chart_bars sample_view sample_chart). by vm_compute. Defined.

(** X10: which row the sentence under the chart reports: the row of the
    sorted frame whose position is the label of the first row.  When the
    first row has the label 0, that is the first row itself, and no
    group has a greater count than the one reported. *)
Theorem vessel_chart_reported_row filtered v :
  show_vessel_chart_view filtered = Ok (Shown v) →
  ∃ top rest row,
    bar_chart v = top :: rest
    ∧ (top :: rest) !! label top = Some row
    ∧ most_frequent v = (group row, WRECK_COUNT row)
    ∧ (label top = 0%nat →
       row = top
       ∧ Forall (λ c, (WRECK_COUNT c ≤ (most_frequent v).2)%nat) (bar_chart v)).
Proof.
  intros Hshown.
  destruct (show_vessel_chart_view_shown filtered v Hshown)
    as (Hbars & r & Hr & Htype).
  destruct (show_vessel_chart_view_reports filtered r Hr Htype)
    as (top & rest & row & Hcounts & Hrow & Hview).
  rewrite Hview in Hshown. injection Hshown as <-. simpl.
  exists top, rest, row. split_and!; [done..|].
  intros Hzero. rewrite Hzero in Hrow. injection Hrow as <-.
  split; [done|].
  pose proof (sort_by_count_sorted
                (reset_index (groupby_count String.le VESSEL_TYPE filtered)))
    as Hsorted.
  rewrite Hcounts in Hsorted.
  apply StronglySorted_cons in Hsorted as [Hrest _].
  constructor; [done|]. exact Hrest.
Qed.

Lemma sample_chart_reported_row :
  ∃ top rest row,
    bar_chart sample_chart = top :: rest
    ∧ (top :: rest) !! label top = Some row
    ∧ most_frequent sample_chart = (group row, WRECK_COUNT row)
    ∧ (label top = 0%nat →
       row = top
       ∧ Forall (λ c, (WRECK_COUNT c ≤ (most_frequent sample_chart).2)%nat)
                (bar_chart sample_chart)).
Proof.
  apply (vessel_chart_reported_row sample_view sample_chart). by vm_compute.
Defined.

(** X11: the vessel-type view raises exactly on a frame that has rows
    but not one vessel type, where [idxmax] finds the counts empty; it
    never reads [iloc] out of range. *)
Theorem vessel_chart_raises filtered e :
  show_vessel_chart_view filtered = Raise e
  ↔ e = ValueError ∧ filtered ≠ []
    ∧ Forall (λ r, VESSEL_TYPE r = None) filtered.
Proof.
  split.
  - intros Hraise.
    destruct (decide (Forall (λ r, VESSEL_TYPE r = None) filtered))
      as [Hnone|Hsome].
    + unfold show_vessel_chart_view in Hraise.
      rewrite (groupby_count_no_keys String.le VESSEL_TYPE filtered Hnone)
        in Hraise.
      destruct filtered; [done|]. simpl in Hraise. by injection Hraise as <-.
    + apply (not_Forall_Exists (λ r : Row, VESSEL_TYPE r = None)) in Hsome.
      apply Exists_exists in Hsome as (r & Hr & Htype).
      assert (is_Some (VESSEL_TYPE r)) as Hty.
      { simpl in Htype. destruct (VESSEL_TYPE r); [by eexists|done]. }
      destruct (show_vessel_chart_view_reports filtered r Hr Hty)
        as (top & rest & row & _ & _ & Hview).
      by rewrite Hview in Hraise.
  - intros (-> & Hne & Hnone). unfold show_vessel_chart_view.
    rewrite (groupby_count_no_keys String.le VESSEL_TYPE filtered Hnone).
    by destruct filtered.
Qed.

(** ** Counting by groups *)

Lemma sum_list_with_ext {A} (f g : A → nat) (l : list A) :
  (∀ x, x ∈ l → f x = g x) → sum_list_with f l = sum_list_with g l.
Proof.
  induction l as [|x l IH]; intros Hfg; [done|]. simpl.
  rewrite (Hfg x) by (by left). rewrite IH; [done|].
  intros y Hy. apply Hfg. by right.
Qed.

Lemma sum_list_with_add {A} (f g : A → nat) (l : list A) :
  sum_list_with (λ x, f x + g x)%nat l
  = (sum_list_with f l + sum_list_with g l)%nat.
Proof. induction l as [|x l IH]; [done|]. simpl. rewrite IH. lia. Qed.

Lemma sum_list_with_zero {A} (l : list A) : sum_list_with (λ _, 0%nat) l = 0%nat.
Proof. induction l as [|x l IH]; [done|]. simpl. by rewrite IH. Qed.

Lemma sum_list_with_fmap {A B} (f : B → nat) (g : A → B) (l : list A) :
  sum_list_with f (g <$> l) = sum_list_with (f ∘ g) l.
Proof. induction l as [|x l IH]; [done|]. cbn. by f_equal. Qed.

Lemma sum_list_with_indicator {K} `{EqDecision K} (k0 : K) (ks : list K) :
  NoDup ks → k0 ∈ ks →
  sum_list_with (λ k, if decide (k0 = k) then 1 else 0)%nat ks = 1%nat.
Proof.
  induction 1 as [|k ks Hk Hks IH]; intros Hin; [by apply elem_of_nil in Hin|].
  simpl. apply elem_of_cons in Hin as [->|Hin].
  - rewrite decide_True by done.
    rewrite (sum_list_with_ext _ (λ _, 0%nat)), sum_list_with_zero; [done|].
    intros k' Hk'. rewrite decide_False; [done|]. by intros ->.
  - rewrite decide_False by (by intros ->). by rewrite IH.
Qed.

(** The sizes of the groups of a frame add up to the number of its rows
    that have a key. *)
Lemma group_sizes_add_up {K} `{EqDecision K} (key : Row → option K)
    (P : Row → Prop) `{∀ r, Decision (P r)} (ks : list K) (l : DataFrame) :
  NoDup ks → (∀ r k, r ∈ l → key r = Some k → k ∈ ks) →
  sum_list_with (λ k, length (filter (λ r, P r ∧ key r = Some k) l)) ks
  = length (filter (λ r, P r ∧ is_Some (key r)) l).
Proof.
  intros Hnodup. induction l as [|x l IH]; intros Hkeys.
  { apply sum_list_with_zero. }
  rewrite (sum_list_with_ext _
    (λ k, (if decide (P x ∧ key x = Some k) then 1 else 0)
          + length (filter (λ r, P r ∧ key r = Some k) l))%nat).
  2:{ intros k _. rewrite filter_cons. by case_decide. }
  rewrite sum_list_with_add, IH by (intros r k Hr; apply Hkeys; by right).
  rewrite (filter_cons (λ r, P r ∧ is_Some (key r))).
  destruct (decide (P x)) as [HP|HP]; destruct (key x) as [k0|] eqn:Hk0.
  - rewrite (sum_list_with_ext _ (λ k, if decide (k0 = k) then 1 else 0)%nat).
    2:{ intros k _. destruct (decide (k0 = k)) as [->|Hne].
        - by rewrite decide_True.
        - rewrite decide_False; [done|]. intros [_ [= ?]]. done. }
    rewrite sum_list_with_indicator; [|done|].
    + rewrite decide_True by eauto. done.
    + apply (Hkeys x); [by left|done].
  - rewrite (sum_list_with_ext _ (λ _, 0%nat)), sum_list_with_zero.
    2:{ intros k _. rewrite decide_False; [done|]. by intros [_ [=]]. }
    rewrite decide_False; [done|]. by intros [_ [? [=]]].
  - rewrite (sum_list_with_ext _ (λ _, 0%nat)), sum_list_with_zero.
    2:{ intros k _. rewrite decide_False; [done|]. tauto. }
    rewrite decide_False; [done|]. tauto.
  - rewrite (sum_list_with_ext _ (λ _, 0%nat)), sum_list_with_zero.
    2:{ intros k _. rewrite decide_False; [done|]. tauto. }
    rewrite decide_False; [done|]. tauto.
Qed.

Lemma groupby_count_total {K} `{EqDecision K} (le : relation K)
    `{∀ x y, Decision (le x y)} (key : Row → option K) (df : DataFrame) :
  sum_list_with snd (groupby_count le key df)
  = length (filter (λ r, is_Some (SHIPS_NAME r) ∧ is_Some (key r)) df).
Proof.
  rewrite <-(group_sizes_add_up key (λ r, is_Some (SHIPS_NAME r))
               (fst <$> groupby_count le key df)).
  - rewrite sum_list_with_fmap. apply sum_list_with_ext.
    intros [k n] Hkn. simpl. rewrite (elem_of_groupby_count le key df k n Hkn).
    unfold group_rows. by rewrite list_filter_filter.
  - apply NoDup_groupby_count_keys.
  - intros r k Hr Hk. apply elem_of_groupby_count_keys. eauto.
Qed.

(** X12: the bars of the chart add up: the counts of a chart that is
    shown sum to the number of rows of the view that have a vessel type
    and a name. *)
Theorem vessel_chart_total filtered v :
  show_vessel_chart_view filtered = Ok (Shown v) →
  sum_list_with WRECK_COUNT (bar_chart v)
  = length (filter (λ r, is_Some (SHIPS_NAME r) ∧ is_Some (VESSEL_TYPE r))
                   filtered).
Proof.
  intros [-> _]%show_vessel_chart_view_shown.
  unfold sort_by_count. rewrite sort_values_Permutation.
  rewrite <-(groupby_count_total String.le VESSEL_TYPE filtered).
  set (groups := groupby_count String.le VESSEL_TYPE filtered).
  transitivity (sum_list (WRECK_COUNT <$> reset_index groups)).
  - symmetry. apply (sum_list_with_fmap id).
  - rewrite count_reset_index. apply (sum_list_with_fmap id).
Qed.

Lemma sample_chart_total :
  sum_list_with WRECK_COUNT (bar_chart sample_chart)
  = length (filter (λ r, is_Some (SHIPS_NAME r) ∧ is_Some (VESSEL_TYPE r))
                   sample_view).
Proof. apply (vessel_chart_total sample_view sample_chart). by vm_compute. Defined.

(** ** Time trends *)

Lemma count_names_filter (df : DataFrame) :
  count_names df = length (filter (λ r, is_Some (SHIPS_NAME r)) df).
Proof.
  unfold count_names, column, dropna.
  induction df as [|r df IH]; [done|].
  rewrite filter_cons. cbn [fmap list_fmap omap list_omap].
  destruct (SHIPS_NAME r); simpl; [by f_equal|done].
Qed.

Lemma StronglySorted_le_lt (l : list Z) :
  Sorted Z.le l → NoDup l → StronglySorted Z.lt l.
Proof.
  intros Hsorted%Sorted_StronglySorted; [|apply _].
  induction Hsorted as [|x l Hl IH Hx]; intros Hnodup; [constructor|].
  apply NoDup_cons in Hnodup as [Hnotin Hnodup].
  constructor; [by apply IH|].
  rewrite Forall_forall in Hx |- *. intros y Hy.
  specialize (Hx y Hy). assert (x ≠ y) by (by intros ->). lia.
Qed.

Lemma show_time_trend_view_shown filtered t :
  show_time_trend_view filtered = Ok (Shown t) →
  line_chart t
  = reset_index
      (groupby_count Z.le YEAR (filter (λ r, is_Some (YEAR r)) filtered))
  ∧ decade_table t = pivot_table filtered.
Proof.
  unfold show_time_trend_view. destruct filtered; [done|].
  by intros [= <-].
Qed.

(** X13: the frame of the line chart.  Its years are the years that
    occur in the view, each once, in ascending order; the label of a row
    is its position; the count of a row is the number of rows of the view
    of that year that have a name; and the counts add up to the number of
    rows of the view that have a year and a name. *)
Theorem time_trend_line filtered t :
  show_time_trend_view filtered = Ok (Shown t) →
  StronglySorted Z.lt (group <$> line_chart t)
  ∧ (∀ y, y ∈ group <$> line_chart t ↔ Some y ∈ column YEAR filtered)
  ∧ (∀ i c, line_chart t !! i = Some c →
       label c = i
       ∧ WRECK_COUNT c
         = length (filter (λ r, is_Some (SHIPS_NAME r)
                                ∧ YEAR r = Some (group c)) filtered))
  ∧ sum_list_with WRECK_COUNT (line_chart t)
    = length (filter (λ r, is_Some (SHIPS_NAME r) ∧ is_Some (YEAR r)) filtered).
Proof.
  intros [-> _]%show_time_trend_view_shown.
  set (dated := filter (λ r, is_Some (YEAR r)) filtered).
  assert (∀ P `{∀ r, Decision (P r)},
            filter (λ r, is_Some (SHIPS_NAME r) ∧ P r) dated
            = filter (λ r, is_Some (SHIPS_NAME r) ∧ P r ∧ is_Some (YEAR r))
                     filtered) as Hdated.
  { intros P HP. unfold dated. rewrite list_filter_filter.
    apply list_filter_iff. tauto. }
  split_and!.
  - rewrite group_reset_index. apply StronglySorted_le_lt.
    + apply Sorted_groupby_count_keys, _.
    + apply NoDup_groupby_count_keys.
  - intros y. rewrite group_reset_index, elem_of_groupby_count_keys.
    unfold dated, column. rewrite list_elem_of_fmap.
    setoid_rewrite list_elem_of_filter. naive_solver.
  - intros i c Hc. split.
    + unfold reset_index in Hc. rewrite list_lookup_imap in Hc.
      destruct (_ !! i); [|done]. simpl in Hc. by injection Hc as <-.
    + apply list_elem_of_lookup_2, elem_of_reset_index in Hc.
      apply elem_of_groupby_count in Hc. rewrite Hc.
      unfold group_rows. rewrite list_filter_filter.
      rewrite (Hdated (λ r, YEAR r = Some (group c)) _).
      f_equal. apply list_filter_iff. intros r. split; [tauto|].
      intros (? & Hy); split_and!; [done..|]. rewrite Hy. by eexists.
  - transitivity (sum_list (WRECK_COUNT <$> reset_index
                              (groupby_count Z.le YEAR dated))).
    { symmetry. apply (sum_list_with_fmap id). }
    rewrite count_reset_index.
    transitivity (sum_list_with snd (groupby_count Z.le YEAR dated)).
    { apply (sum_list_with_fmap id). }
    rewrite groupby_count_total. rewrite (Hdated (λ r, is_Some (YEAR r)) _).
    f_equal. apply list_filter_iff. tauto.
Qed.

Lemma sample_time_trend_line :
  StronglySorted Z.lt (group <$> sample_trend_line)
  ∧ (∀ y, y ∈ group <$> sample_trend_line ↔ Some y ∈ column YEAR sample_view)
  ∧ (∀ i c, sample_trend_line !! i = Some c →
       label c = i
       ∧ WRECK_COUNT c
         = length (filter (λ r, is_Some (SHIPS_NAME r)
                                ∧ YEAR r = Some (group c)) sample_view))
  ∧ sum_list_with WRECK_COUNT sample_trend_line
    = length (filter (λ r, is_Some (SHIPS_NAME r) ∧ is_Some (YEAR r))
                     sample_view).
Proof.
  apply (time_trend_line sample_view
           {| line_chart := sample_trend_line;
              decade_table := pivot_table sample_view |}).
  by vm_compute.
Defined.

(** ** The pivot table *)

Section pivot_table.
Context (df : DataFrame).

Let keyed : DataFrame :=
  filter (λ r, is_Some (DECADE r) ∧ is_Some (VESSEL_TYPE r)) df.

Lemma pivot_index_eq :
  pivot_index (pivot_table df)
  = merge_sort Z.le (remove_dups (dropna (column DECADE keyed))).
Proof. done. Qed.

Lemma pivot_columns_eq :
  pivot_columns (pivot_table df)
  = merge_sort String.le (remove_dups (dropna (column VESSEL_TYPE keyed))).
Proof. done. Qed.

Lemma pivot_cells_eq :
  pivot_cells (pivot_table df)
  = (λ d, (λ t, length (filter (λ r, is_Some (SHIPS_NAME r)
                                     ∧ DECADE r = Some d
                                     ∧ VESSEL_TYPE r = Some t) df))
            <$> pivot_columns (pivot_table df))
    <$> pivot_index (pivot_table df).
Proof.
  cbn [pivot_table pivot_cells pivot_columns pivot_index].
  apply list_fmap_ext. intros _ d _. apply list_fmap_ext. intros _ t _.
  rewrite <-(list_filter_filter (λ r, is_Some (SHIPS_NAME r))
               (λ r, DECADE r = Some d ∧ VESSEL_TYPE r = Some t)).
  rewrite <-count_names_filter.
  by destruct (filter (λ r, DECADE r = Some d ∧ VESSEL_TYPE r = Some t) df).
Qed.

Lemma elem_of_pivot_index d :
  d ∈ pivot_index (pivot_table df)
  ↔ ∃ r, r ∈ df ∧ DECADE r = Some d ∧ is_Some (VESSEL_TYPE r).
Proof.
  rewrite pivot_index_eq, merge_sort_Permutation, elem_of_remove_dups,
    elem_of_dropna. unfold column, keyed. rewrite list_elem_of_fmap.
  setoid_rewrite list_elem_of_filter. split.
  - intros (r & Hd & (_ & Ht) & Hr). eauto.
  - intros (r & Hr & Hd & Ht). exists r. rewrite Hd. eauto.
Qed.

Lemma elem_of_pivot_columns t :
  t ∈ pivot_columns (pivot_table df)
  ↔ ∃ r, r ∈ df ∧ VESSEL_TYPE r = Some t ∧ is_Some (DECADE r).
Proof.
  rewrite pivot_columns_eq, merge_sort_Permutation, elem_of_remove_dups,
    elem_of_dropna. unfold column, keyed. rewrite list_elem_of_fmap.
  setoid_rewrite list_elem_of_filter. split.
  - intros (r & Ht & (Hd & _) & Hr). eauto.
  - intros (r & Hr & Ht & Hd). exists r. rewrite Ht. eauto.
Qed.

Lemma NoDup_pivot_index : NoDup (pivot_index (pivot_table df)).
Proof.
  rewrite pivot_index_eq, merge_sort_Permutation. apply NoDup_remove_dups.
Qed.

Lemma NoDup_pivot_columns : NoDup (pivot_columns (pivot_table df)).
Proof.
  rewrite pivot_columns_eq, merge_sort_Permutation. apply NoDup_remove_dups.
Qed.
End pivot_table.

(** X14: the pivot table is a full rectangle of counts: one line of
    cells for each decade of its index, one cell in each line for each
    vessel type of its columns, and the cell of a decade and a type holds
    the number of rows with that decade, that type and a name, which is 0
    when there is none. *)
Theorem pivot_table_cells df :
  length (pivot_cells (pivot_table df)) = length (pivot_index (pivot_table df))
  ∧ Forall (λ line, length line = length (pivot_columns (pivot_table df)))
           (pivot_cells (pivot_table df))
  ∧ ∀ i j d t,
      pivot_index (pivot_table df) !! i = Some d →
      pivot_columns (pivot_table df) !! j = Some t →
      ∃ line,
        pivot_cells (pivot_table df) !! i = Some line
        ∧ line !! j
          = Some (length (filter (λ r, is_Some (SHIPS_NAME r)
                                       ∧ DECADE r = Some d
                                       ∧ VESSEL_TYPE r = Some t) df)).
Proof.
  rewrite pivot_cells_eq. split_and!.
  - by rewrite length_fmap.
  - rewrite Forall_fmap. apply Forall_forall. intros d _. simpl.
    by rewrite length_fmap.
  - intros i j d t Hd Ht. eexists. rewrite list_lookup_fmap, Hd.
    split; [done|]. by rewrite list_lookup_fmap, Ht.
Qed.

(** X15: the keys of the pivot table.  The index holds, in ascending
    order and once each, the decades of the rows that have a vessel type;
    the columns hold, in ascending order and once each, the vessel types
    of the rows that have a decade. *)
Theorem pivot_table_keys df :
  StronglySorted Z.lt (pivot_index (pivot_table df))
  ∧ (∀ d, d ∈ pivot_index (pivot_table df)
          ↔ ∃ r, r ∈ df ∧ DECADE r = Some d ∧ is_Some (VESSEL_TYPE r))
  ∧ Sorted String.le (pivot_columns (pivot_table df))
  ∧ NoDup (pivot_columns (pivot_table df))
  ∧ (∀ t, t ∈ pivot_columns (pivot_table df)
          ↔ ∃ r, r ∈ df ∧ VESSEL_TYPE r = Some t ∧ is_Some (DECADE r)).
Proof.
  split_and!.
  - apply StronglySorted_le_lt; [|apply NoDup_pivot_index].
    rewrite pivot_index_eq. apply Sorted_merge_sort, _.
  - apply elem_of_pivot_index.
  - rewrite pivot_columns_eq. apply Sorted_merge_sort, _.
  - apply NoDup_pivot_columns.
  - apply elem_of_pivot_columns.
Qed.

(** X16: the pivot table counts every row once: its cells add up to the
    number of rows that have a decade, a vessel type and a name. *)
Theorem pivot_table_total df :
  sum_list_with sum_list (pivot_cells (pivot_table df))
  = length (filter (λ r, is_Some (SHIPS_NAME r) ∧ is_Some (DECADE r)
                         ∧ is_Some (VESSEL_TYPE r)) df).
Proof.
  set (keyed := filter (λ r, is_Some (DECADE r) ∧ is_Some (VESSEL_TYPE r)) df).
  assert (∀ Q `{∀ r, Decision (Q r)},
            (∀ r, Q r → is_Some (DECADE r) ∧ is_Some (VESSEL_TYPE r)) →
            filter Q df = filter Q keyed) as Hkeyed.
  { intros Q HQ Himp. unfold keyed. rewrite list_filter_filter.
    apply list_filter_iff. intros r. specialize (Himp r). tauto. }
  assert (∀ r, r ∈ keyed ↔
               r ∈ df ∧ is_Some (DECADE r) ∧ is_Some (VESSEL_TYPE r)) as Hin.
  { intros r. unfold keyed. rewrite list_elem_of_filter. tauto. }
  rewrite pivot_cells_eq, sum_list_with_fmap.
  rewrite (sum_list_with_ext _
    (λ d, length (filter (λ r, (is_Some (SHIPS_NAME r)
                                ∧ is_Some (VESSEL_TYPE r))
                               ∧ DECADE r = Some d) keyed))).
  - rewrite (group_sizes_add_up DECADE
               (λ r, is_Some (SHIPS_NAME r) ∧ is_Some (VESSEL_TYPE r))).
    + rewrite <-Hkeyed by tauto. f_equal. apply list_filter_iff. tauto.
    + apply NoDup_pivot_index.
    + intros r d (Hr & _ & Ht)%Hin Hd. apply elem_of_pivot_index. eauto.
  - intros d _. unfold compose.
    transitivity
      (sum_list_with
         (λ t, length (filter (λ r, (is_Some (SHIPS_NAME r)
                                     ∧ DECADE r = Some d)
                                    ∧ VESSEL_TYPE r = Some t) keyed))
         (pivot_columns (pivot_table df))).
    + rewrite (sum_list_with_fmap id). apply sum_list_with_ext.
      intros t _. unfold compose, id.
      rewrite Hkeyed by (intros r (_ & -> & ->); eauto).
      f_equal. apply list_filter_iff. tauto.
    + rewrite (group_sizes_add_up VESSEL_TYPE
                 (λ r, is_Some (SHIPS_NAME r) ∧ DECADE r = Some d)).
      * f_equal. apply list_filter_iff. tauto.
      * apply NoDup_pivot_columns.
      * intros r t (Hr & Hd & _)%Hin Ht. apply elem_of_pivot_columns. eauto.
Qed.

(** ** The statistics of the deadliest view *)

Lemma filter_fmap {A B} (f : A → B) (P : B → Prop) `{∀ y, Decision (P y)}
    (l : list A) :
  filter P (f <$> l) = f <$> filter (λ x, P (f x)) l.
Proof.
  induction l as [|x l IH]; [done|].
  cbn [fmap list_fmap]. rewrite !filter_cons, IH. by case_decide.
Qed.

Lemma exact_sum_bounds (s : list Z) (worst : Z) :
  Forall (λ v, 0 ≤ v) s → Forall (λ v, v ≤ worst) s →
  0 ≤ foldr Z.add 0 s
  ∧ Forall (λ v, v ≤ foldr Z.add 0 s) s
  ∧ foldr Z.add 0 s ≤ Z.of_nat (length (filter (λ v, 0 < v) s)) * worst
  ∧ (foldr Z.add 0 s = 0 ↔ length (filter (λ v, 0 < v) s) = 0%nat).
Proof.
  induction 1 as [|x s Hx Hs IH]; intros Hworst.
  { split_and!; [done|constructor|simpl; lia|done]. }
  apply Forall_cons in Hworst as [Hxw Hsw].
  destruct (IH Hsw) as (Hnonneg & Hle & Hsum & Hzero).
  rewrite filter_cons. simpl. split_and!.
  - lia.
  - constructor; [lia|]. eapply Forall_impl; [exact Hle|]. simpl. lia.
  - case_decide; simpl length; nia.
  - case_decide; simpl length; [lia|]. split; [intros; apply Hzero; lia|].
    intros ?%Hzero. lia.
Qed.

Lemma show_deadliest_view_shown filtered d :
  show_deadliest_view filtered = Ok (Shown d) →
  ∃ worst,
    series_max (column LIVES_LOST_CLEAN filtered) = Some worst
    ∧ top10 d = head 10 (sort_by_lives filtered)
    ∧ table d = table_row <$> top10 d
    ∧ stats d
      = [("Total wrecks in this selection", Z.of_nat (length filtered));
         ("Wrecks with at least 1 life lost",
          Z.of_nat (length (filter (λ v, 0 < v)
                                   (column LIVES_LOST_CLEAN filtered))));
         ("Total lives lost in this selection",
          series_sum (column LIVES_LOST_CLEAN filtered));
         ("Maximum lives lost in a single wreck", worst)].
Proof.
  unfold show_deadliest_view. destruct filtered as [|r0 rs]; [done|].
  destruct (series_max _) as [worst|] eqn:Hworst; [|done].
  simpl. intros [= <-]. by exists worst.
Qed.

(** X17: the four statistics of the deadliest view, in the order of the
    page: the number of rows of the view; the number of its rows with
    [LIVES_LOST_CLEAN] above 0, which is at most the first; the sum of
    [LIVES_LOST_CLEAN]; and its maximum, which no row exceeds and which
    is the value of the first row of the top-10 table. *)
Theorem deadliest_statistics filtered d :
  show_deadliest_view filtered = Ok (Shown d) →
  ∃ with_loss worst first rest,
    stats d
    = [("Total wrecks in this selection", Z.of_nat (length filtered));
       ("Wrecks with at least 1 life lost", with_loss);
       ("Total lives lost in this selection",
        series_sum (column LIVES_LOST_CLEAN filtered));
       ("Maximum lives lost in a single wreck", worst)]
    ∧ with_loss
      = Z.of_nat (length (filter (λ r, 0 < LIVES_LOST_CLEAN r) filtered))
    ∧ 0 ≤ with_loss ≤ Z.of_nat (length filtered)
    ∧ Forall (λ r, LIVES_LOST_CLEAN r ≤ worst) filtered
    ∧ top10 d = first :: rest
    ∧ LIVES_LOST_CLEAN first = worst.
Proof.
  intros (worst & Hworst & Htop & _ & Hstats)%show_deadliest_view_shown.
  assert (filtered ≠ []) as Hne by (by intros ->).
  assert (column LIVES_LOST_CLEAN filtered ≠ []) as Hlives
    by (by destruct filtered).
  destruct (series_max_spec _ Hlives) as (worst' & Hworst' & Hin & Hmax).
  unfold column in *. rewrite Hworst in Hworst'. injection Hworst' as <-.
  rewrite Forall_fmap in Hmax.
  assert (length (filter (λ v, 0 < v) (LIVES_LOST_CLEAN <$> filtered))
          = length (filter (λ r, 0 < LIVES_LOST_CLEAN r) filtered)) as Hcount.
  { by rewrite filter_fmap, length_fmap. }
  pose proof (StronglySorted_sort_values lives_ge filtered) as Hsorted.
  pose proof (sort_values_Permutation lives_ge filtered) as Hperm.
  destruct (sort_values lives_ge filtered) as [|first sorted] eqn:Hsort.
  { symmetry in Hperm. by apply Permutation_nil_r in Hperm. }
  exists (Z.of_nat (length (filter (λ r, 0 < LIVES_LOST_CLEAN r) filtered))),
    worst, first, (take 9 sorted).
  split_and!.
  - by rewrite Hstats, Hcount.
  - done.
  - lia.
  - pose proof (length_filter (λ r, 0 < LIVES_LOST_CLEAN r) filtered). lia.
  - done.
  - rewrite Htop. unfold head, sort_by_lives. by rewrite Hsort.
  - apply StronglySorted_cons in Hsorted as [Hrest _].
    apply list_elem_of_fmap in Hin as (r & -> & Hr).
    assert (first ∈ filtered) as Hfirst by (rewrite <-Hperm; by left).
    rewrite Forall_forall in Hmax. specialize (Hmax first Hfirst).
    simpl in Hmax.
    assert (lives_ge first r) as Hge.
    { rewrite <-Hperm in Hr. apply elem_of_cons in Hr as [->|Hr].
      - unfold lives_ge. lia.
      - rewrite Forall_forall in Hrest. by apply Hrest. }
    unfold lives_ge in Hge. lia.
Qed.

Lemma sample_deadliest_statistics :
  ∃ d with_loss worst first rest,
    show_deadliest_view sample_view = Ok (Shown d)
    ∧ stats d
      = [("Total wrecks in this selection", Z.of_nat (length sample_view));
         ("Wrecks with at least 1 life lost", with_loss);
         ("Total lives lost in this selection",
          series_sum (column LIVES_LOST_CLEAN sample_view));
         ("Maximum lives lost in a single wreck", worst)]
    ∧ with_loss
      = Z.of_nat (length (filter (λ r, 0 < LIVES_LOST_CLEAN r) sample_view))
    ∧ 0 ≤ with_loss ≤ Z.of_nat (length sample_view)
    ∧ Forall (λ r, LIVES_LOST_CLEAN r ≤ worst) sample_view
    ∧ top10 d = first :: rest
    ∧ LIVES_LOST_CLEAN first = worst.
Proof.
  destruct (show_deadliest_view sample_view) as [[msg|d]|e] eqn:Hview;
    [by vm_compute in Hview| |by vm_compute in Hview].
  destruct (deadliest_statistics sample_view d Hview)
    as (with_loss & worst & first & rest & H).
  by exists d, with_loss, worst, first, rest.
Defined.

(** X18: on a view without negative values of [LIVES_LOST_CLEAN] whose
    exact sum is below 2^63, the statistics bound one another: the
    maximum is at most the sum, the sum is at most the maximum times the
    number of wrecks with a loss, and the sum is 0 exactly when no wreck
    has a loss. *)
Theorem deadliest_totals filtered d :
  Forall (λ r, 0 ≤ LIVES_LOST_CLEAN r) filtered →
  foldr Z.add 0 (column LIVES_LOST_CLEAN filtered) < 2 ^ 63 →
  show_deadliest_view filtered = Ok (Shown d) →
  ∃ total with_loss lost worst,
    snd <$> stats d = [total; with_loss; lost; worst]
    ∧ 0 ≤ worst ≤ lost
    ∧ lost ≤ with_loss * worst
    ∧ (lost = 0 ↔ with_loss = 0).
Proof.
  intros Hnonneg Hfits
    (worst & Hworst & _ & _ & Hstats)%show_deadliest_view_shown.
  assert (column LIVES_LOST_CLEAN filtered ≠ []) as Hlives
    by (intros Hnil; by rewrite Hnil in Hworst).
  destruct (series_max_spec _ Hlives) as (worst' & Hworst' & Hin & Hmax).
  rewrite Hworst in Hworst'. injection Hworst' as <-.
  assert (Forall (λ v, 0 ≤ v) (column LIVES_LOST_CLEAN filtered)) as Hpos
    by (unfold column; by rewrite Forall_fmap).
  destruct (exact_sum_bounds _ worst Hpos Hmax)
    as (Hsum0 & Hle & Hsum & Hzero).
  assert (series_sum (column LIVES_LOST_CLEAN filtered)
          = foldr Z.add 0 (column LIVES_LOST_CLEAN filtered)) as Hexact.
  { unfold series_sum. apply wrap64_id. lia. }
  rewrite Forall_forall in Hle, Hpos.
  do 4 eexists. rewrite Hstats, Hexact. split; [done|].
  simpl. split_and!; [by apply Hpos|by apply Hle|done|].
  rewrite Hzero. simpl. lia.
Qed.

Lemma sample_deadliest_totals :
  ∃ d total with_loss lost worst,
    show_deadliest_view sample_view = Ok (Shown d)
    ∧ snd <$> stats d = [total; with_loss; lost; worst]
    ∧ 0 ≤ worst ≤ lost
    ∧ lost ≤ with_loss * worst
    ∧ (lost = 0 ↔ with_loss = 0).
Proof.
  destruct (show_deadliest_view sample_view) as [[msg|d]|e] eqn:Hview;
    [by vm_compute in Hview| |by vm_compute in Hview].
  assert (Forall (λ r, 0 ≤ LIVES_LOST_CLEAN r) sample_view) as Hnonneg.
  { apply (bool_decide_unpack _). by vm_compute. }
  assert (foldr Z.add 0 (column LIVES_LOST_CLEAN sample_view) < 2 ^ 63)
    as Hfits by (by vm_compute).
  destruct (deadliest_totals sample_view d Hnonneg Hfits Hview)
    as (total & with_loss & lost & worst & H).
  by exists d, total, with_loss, lost, worst.
Defined.

(** Without the bound the sum wraps: two wrecks of 2^62 lives lost have
    the total -2^63. *)
Example deadliest_total_wraps :
  series_sum [4611686018427387904; 4611686018427387904]
  = -9223372036854775808.
Proof. by vm_compute. Qed.

(** ** The map *)

Lemma load_data_has_coords table r :
  r ∈ load_data table →
  HAS_COORDS r ↔ is_Some (LATITUDE r) ∧ is_Some (LONGITUDE r).
Proof.
  unfold load_data. intros (c & -> & _)%list_elem_of_fmap.
  unfold LATITUDE, LONGITUDE. cbn [load_row csv HAS_COORDS].
  by rewrite andb_True, !notna_spec.
Qed.

(** X19: the map of a view of a loaded table never raises.  When it
    shows its message, no row of the view has both coordinates.  When it
    shows the map, there is a point; the points are the rows of the view
    that have both coordinates, in the order of the view; the colour of
    a point is the first one when [LIVES_LOST_CLEAN] is 0 and the second
    one otherwise; and both coordinates of the centre are numbers. *)
Theorem map_view_points table view :
  view `sublist_of` load_data table →
  match show_map_view view with
  | Ok (Info msg) =>
      msg = "No wrecks with valid coordinates for the current filters."
      ∧ Forall (λ r, LATITUDE r = None ∨ LONGITUDE r = None) view
  | Ok (Shown m) =>
      points m ≠ []
      ∧ fst <$> points m
        = filter (λ r, is_Some (LATITUDE r) ∧ is_Some (LONGITUDE r)) view
      ∧ Forall (λ p, p.2 = if decide (LIVES_LOST_CLEAN p.1 = 0)
                           then [0; 180; 0; 160] else [220; 0; 0; 200])
               (points m)
      ∧ is_Some (center_lat m) ∧ is_Some (center_lon m)
  | Raise _ => False
  end.
Proof.
  intros Hview. unfold show_map_view.
  assert (select view (column HAS_COORDS view)
          = filter (λ r, is_Some (LATITUDE r) ∧ is_Some (LONGITUDE r)) view)
    as ->.
  { unfold column. rewrite select_fmap. apply filter_ext_elem_of.
    intros r Hr. apply (load_data_has_coords table).
    by eapply elem_of_sublist. }
  destruct (filter _ view) as [|r0 map_data] eqn:Hmap.
  - split; [done|]. apply Forall_forall. intros r Hr.
    destruct (LATITUDE r) as [lat|] eqn:Hlat; [|by left].
    destruct (LONGITUDE r) as [lon|] eqn:Hlon; [|by right].
    exfalso. eapply (filter_nil_not_elem_of _ _ r Hmap); [|done].
    rewrite Hlat, Hlon. eauto.
  - assert (is_Some (LATITUDE r0) ∧ is_Some (LONGITUDE r0)) as [[lat Hlat] [lon Hlon]].
    { assert (r0 ∈ r0 :: map_data) as Hin by (by left).
      rewrite <-Hmap in Hin. by apply list_elem_of_filter in Hin as [? _]. }
    cbn [points center_lat center_lon]. split_and!.
    + done.
    + rewrite <-list_fmap_compose. apply list_fmap_id.
    + rewrite Forall_fmap. apply Forall_forall. intros r _. simpl.
      unfold color. destruct (Z.eqb_spec (LIVES_LOST_CLEAN r) 0).
      * by rewrite decide_True.
      * by rewrite decide_False.
    + unfold column. cbn. rewrite Hlat. cbn. eauto.
    + unfold column. cbn. rewrite Hlon. cbn. eauto.
Qed.

Lemma charted_map_view :
  match show_map_view (load_data charted_table) with
  | Ok (Info msg) =>
      msg = "No wrecks with valid coordinates for the current filters."
      ∧ Forall (λ r, LATITUDE r = None ∨ LONGITUDE r = None)
               (load_data charted_table)
  | Ok (Shown m) =>
      points m ≠ []
      ∧ fst <$> points m
        = filter (λ r, is_Some (LATITUDE r) ∧ is_Some (LONGITUDE r))
                 (load_data charted_table)
      ∧ Forall (λ p, p.2 = if decide (LIVES_LOST_CLEAN p.1 = 0)
                           then [0; 180; 0; 160] else [220; 0; 0; 200])
               (points m)
      ∧ is_Some (center_lat m) ∧ is_Some (center_lon m)
  | Raise _ => False
  end.
Proof. by apply (map_view_points charted_table (load_data charted_table)). Defined.

Example charted_map_points :
  (λ m, (column SHIPS_NAME (fst <$> points m), snd <$> points m)) <$>
    (match show_map_view (load_data charted_table) with
     | Ok (Shown m) => Some m
     | _ => None
     end)
  = Some ([Some "Alma"; Some "Belle"],
          [[220; 0; 0; 200]; [0; 180; 0; 160]]).
Proof. by vm_compute. Qed.

(** ** The sidebar *)

Lemma main_setup_inv df side :
  main_setup df = Ok side →
  ∃ lo hi most,
    get_year_limits df = Ok (lo, hi)
    ∧ series_max (column LIVES_LOST_CLEAN df) = Some most
    ∧ side
      = {| slider_min := lo; slider_max := hi;
           type_options := vessel_type_options df;
           type_default := default_types (vessel_type_options df);
           lives_max := most |}.
Proof.
  unfold main_setup.
  destruct (get_year_limits df) as [[lo hi]|e]; [|done].
  destruct (series_max _) as [most|]; [|done]. cbn [int mbind outcome_bind].
  intros [= <-]. by exists lo, hi, most.
Qed.


Lemma default_types_take (vessel_types : list string) :
  default_types vessel_types = take 5 vessel_types.
Proof.
  unfold default_types. case_decide; [done|]. symmetry. apply take_ge. lia.
Qed.

(** X21: the vessel types offered in the sidebar are the vessel types of
    the table that are not blank, each once, in ascending order; the
    default selection is the first five of them, or all of them when
    they are fewer. *)
Theorem vessel_type_options_spec df :
  Sorted String.le (vessel_type_options df)
  ∧ NoDup (vessel_type_options df)
  ∧ (∀ t, t ∈ vessel_type_options df
          ↔ blank t = false ∧ Some t ∈ column VESSEL_TYPE df)
  ∧ default_types (vessel_type_options df) = take 5 (vessel_type_options df)
  ∧ (length (default_types (vessel_type_options df)) ≤ 5)%nat.
Proof.
  pose proof (default_types_take (vessel_type_options df)) as Hdefault.
  unfold vessel_type_options at 1 2 3. split_and!.
  - apply Sorted_merge_sort, _.
  - rewrite merge_sort_Permutation. apply NoDup_filter, NoDup_remove_dups.
  - intros t. rewrite merge_sort_Permutation, list_elem_of_filter,
      elem_of_remove_dups, elem_of_dropna. done.
  - done.
  - rewrite Hdefault, length_take. lia.
Qed.

(** X22: how [main] sets up the sidebar.  The bounds of the year slider
    are in order and every year of the table lies between them; the
    default of the multiselect is a prefix of its options; the upper
    bound of the number input is the greatest [LIVES_LOST_CLEAN] of the
    table, which is not negative when the lives lost of the loaded
    table are numbers from 0 to 2^63 - 1. *)
Theorem main_sidebar table side :
  main_setup (load_data table) = Ok side →
  slider_min side ≤ slider_max side
  ∧ (∀ r y, r ∈ load_data table → YEAR r = Some y →
            slider_min side ≤ y ≤ slider_max side)
  ∧ type_options side = vessel_type_options (load_data table)
  ∧ type_default side `prefix_of` type_options side
  ∧ Forall (λ r, LIVES_LOST_CLEAN r ≤ lives_max side) (load_data table)
  ∧ (∃ r, r ∈ load_data table ∧ LIVES_LOST_CLEAN r = lives_max side)
  ∧ (lives_within (load_data table) → 0 ≤ lives_max side).
Proof.
  intros (lo & hi & most & Hlimits & Hmost & ->)%main_setup_inv. simpl.
  apply get_year_limits_bounds in Hlimits as [Horder Hyears].
  assert (column LIVES_LOST_CLEAN (load_data table) ≠ []) as Hlives
    by (intros Hnil; by rewrite Hnil in Hmost).
  destruct (series_max_spec _ Hlives) as (most' & Hmost' & Hin & Hmax).
  rewrite Hmost in Hmost'. injection Hmost' as <-.
  unfold column in Hin, Hmax. rewrite Forall_fmap in Hmax.
  apply list_elem_of_fmap in Hin as (r & Hr & Hrin).
  split_and!; [done..| | | |].
  - rewrite default_types_take. apply prefix_take.
  - done.
  - by exists r.
  - intros Hsrc%lives_within_clean. rewrite Hr.
    rewrite Forall_forall in Hsrc. by apply Hsrc.
Qed.

Lemma sample_main_sidebar :
  ∃ side, main_setup (load_data sample_table) = Ok side
    ∧ slider_min side ≤ slider_max side
    ∧ (∀ r y, r ∈ load_data sample_table → YEAR r = Some y →
              slider_min side ≤ y ≤ slider_max side)
    ∧ type_options side = vessel_type_options (load_data sample_table)
    ∧ type_default side `prefix_of` type_options side
    ∧ Forall (λ r, LIVES_LOST_CLEAN r ≤ lives_max side)
             (load_data sample_table)
    ∧ (∃ r, r ∈ load_data sample_table ∧ LIVES_LOST_CLEAN r = lives_max side)
    ∧ (lives_within (load_data sample_table) → 0 ≤ lives_max side).
Proof.
  destruct (main_setup (load_data sample_table)) as [side|e] eqn:Hmain;
    [|by vm_compute in Hmain].
  exists side. split; [done|]. by apply (main_sidebar sample_table side).
Defined.

(** X23: the first run of the page, when every widget returns its
    default, on a loaded table whose lives lost are numbers from 0 to
    2^63 - 1:
    neither the year slider nor the threshold leaves a row out, so the
    selection holds the rows that have a year and whose vessel type is
    among the first five offered, or, when none is offered, the rows
    that have a year and a vessel type. *)
Theorem main_first_run table side :
  lives_within (load_data table) →
  main_setup (load_data table) = Ok side →
  main_filter (load_data table) (first_run side)
  = filter (λ r, is_Some (YEAR r)
                 ∧ vessel_type_predicate
                     (Some (take 5 (vessel_type_options (load_data table))))
                     r)
           (load_data table).
Proof.
  intros Hsrc%lives_within_clean
    (lo & hi & most & Hlimits & _ & ->)%main_setup_inv.
  unfold main_filter. simpl. rewrite default_types_take.
  rewrite (filter_wrecks_within_limits _ _ _ _ Hlimits).
  apply filter_ext_elem_of. intros r Hr.
  rewrite Forall_forall in Hsrc. destruct (Hsrc r Hr) as [_ Hpos].
  unfold lives_lost_predicate. tauto.
Qed.

Lemma sample_main_first_run :
  ∃ side, main_setup (load_data sample_table) = Ok side
    ∧ main_filter (load_data sample_table) (first_run side)
      = filter (λ r, is_Some (YEAR r)
                     ∧ vessel_type_predicate
                         (Some (take 5 (vessel_type_options
                                          (load_data sample_table))))
                         r)
               (load_data sample_table).
Proof.
  destruct (main_setup (load_data sample_table)) as [side|e] eqn:Hmain;
    [|by vm_compute in Hmain].
  exists side. split; [done|].
  apply (main_first_run sample_table side); [|done].
  unfold lives_within. repeat constructor; by vm_compute.
Defined.

(** Without the bound a row is lost on the first run: 2^63 lives lost are
    loaded as -2^63, below the threshold 0. *)
Example far_first_run :
  (λ side, length (main_filter (load_data far_table) (first_run side))) <$>
    (match main_setup (load_data far_table) with
     | Ok side => Some side
     | Raise _ => None
     end)
  = Some 0%nat.
Proof. by vm_compute. Qed.
